(** * klartext backend: a shallow embedding of [backend/src/app.ts]

    The backend is an Express application with one access guard
    ([checkOrigin]) and three JSON endpoints ([/simplify], [/word-info],
    [/feedback]).  This development embeds the guard and the three
    handlers as Rocq functions and proves the properties the
    specification states about them.

    Conventions of the embedding.
    - A JavaScript string is a [string]; one [ascii] stands for one code
      unit, so the model covers strings whose code units are below 256.
      [String.length] is JavaScript's [.length].
    - [undefined] (an absent header, field, query parameter or
      environment variable) is [None].
    - A promise that rejects and a [throw] are the [Throw] outcome of the
      handler monad [M]; [await] is its bind.
    - Everything the handlers reach outside of [app.ts] (the file
      extractors, the URL validator, the completion API client, the
      Redis client, the clock, the enum of [./types]) is a field of the
      record [World]. *)

From Stdlib Require Import ZArith String Ascii List Bool Lia QArith DecimalString.
From Stdlib Require Import DecimalPos DecimalZ.
From stdpp Require Import gmap strings.

Close Scope Q_scope.
Open Scope string_scope.
Open Scope Z_scope.

(** ** JavaScript strings *)

Module Js.

(** The line feed and the double quote, which template literals of the
    source contain. *)
Definition LF : string := String (ascii_of_nat 10) EmptyString.
Definition DQUOTE : string := String (ascii_of_nat 34) EmptyString.

(** [s.startsWith(p)]. *)
Definition startsWith (s p : string) : bool := String.prefix p s.

(** A value used as a condition: [undefined] and the empty string are
    falsy, every other string is truthy. *)
Definition truthy (o : option string) : bool :=
  match o with
  | Some s => negb (String.eqb s EmptyString)
  | None => false
  end.

(** [a || b] on possibly undefined strings. *)
Definition or_ (a b : option string) : option string :=
  if truthy a then a else b.

(** [a || d] with a string default, as in [process.env.X || "error"]. *)
Definition or_default (a : option string) (d : string) : string :=
  match a with
  | Some s => if String.eqb s EmptyString then d else s
  | None => d
  end.

(** The white space and line terminators [String.prototype.trim]
    removes, among the code units below 256: TAB, LF, VT, FF, CR,
    SPACE and NBSP. *)
Definition isWhiteSpace (c : ascii) : bool :=
  let n := nat_of_ascii c in
  ((9 <=? n)%nat && (n <=? 13)%nat) || (n =? 32)%nat || (n =? 160)%nat.

Fixpoint trimStart (s : string) : string :=
  match s with
  | EmptyString => EmptyString
  | String c s' => if isWhiteSpace c then trimStart s' else s
  end.

(** [trimEnd] drops a character when it is white space and nothing
    but white space follows it. *)
Fixpoint trimEnd (s : string) : string :=
  match s with
  | EmptyString => EmptyString
  | String c s' =>
      match trimEnd s' with
      | EmptyString => if isWhiteSpace c then EmptyString else String c EmptyString
      | t => String c t
      end
  end.

(** [s.trim()]. *)
Definition trim (s : string) : string := trimEnd (trimStart s).

(** Nothing but white space. *)
Fixpoint blank (s : string) : bool :=
  match s with
  | EmptyString => true
  | String c s' => isWhiteSpace c && blank s'
  end.

Definition first_char (s : string) : option ascii :=
  match s with
  | EmptyString => None
  | String c _ => Some c
  end.

Fixpoint last_char (s : string) : option ascii :=
  match s with
  | EmptyString => None
  | String c EmptyString => Some c
  | String _ s' => last_char s'
  end.

(** [s.split(sep)] for a one-character separator: the pieces between
    the separators, in order; never the empty list. *)
Fixpoint split (sep : ascii) (s : string) : list string :=
  match s with
  | EmptyString => [EmptyString]
  | String c s' =>
      if Ascii.eqb c sep then EmptyString :: split sep s'
      else match split sep s' with
           | p :: ps => String c p :: ps
           | [] => [String c EmptyString]
           end
  end.

(** [pieces.join(sep)], the inverse of [split]. *)
Fixpoint join (sep : ascii) (pieces : list string) : string :=
  match pieces with
  | [] => EmptyString
  | [p] => p
  | p :: ps => p +:+ String sep (join sep ps)
  end.

(** [String(n)] for an integer [n] (below 1e21 in absolute value,
    where JavaScript prints every digit). *)
Definition of_Z (n : Z) : string := NilZero.string_of_int (Z.to_int n).

(** [s.includes(c)] for a one-character [c]. *)
Fixpoint includes (s : string) (c : ascii) : bool :=
  match s with
  | EmptyString => false
  | String d s' => Ascii.eqb d c || includes s' c
  end.

(** The string a truthy value is. *)
Definition truthy_string (o : option string) : option string :=
  if truthy o then o else None.

(** [`${v}`] for a possibly undefined string. *)
Definition template (o : option string) : string :=
  match o with
  | Some s => s
  | None => "undefined"
  end.

End Js.

(** ** SHA-256 (FIPS 180-4)

    [createHash('sha256').update(s).digest('hex')] of Node's [crypto]
    module: the string is encoded in UTF-8, hashed, and the digest is
    printed as 64 lower-case hexadecimal digits.  Words are 32-bit
    integers, written as [Z] with the wrap-around explicit. *)

Module Sha256.

Definition wrap (x : Z) : Z := x mod 2 ^ 32.
Definition add32 (x y : Z) : Z := wrap (x + y).
Definition rotr (n x : Z) : Z := Z.lor (Z.shiftr x n) (wrap (Z.shiftl x (32 - n))).
Definition shr (n x : Z) : Z := Z.shiftr x n.

Definition Ch (x y z : Z) : Z := Z.lxor (Z.land x y) (Z.land (wrap (Z.lnot x)) z).
Definition Maj (x y z : Z) : Z :=
  Z.lxor (Z.lxor (Z.land x y) (Z.land x z)) (Z.land y z).
Definition Sigma0 (x : Z) : Z := Z.lxor (Z.lxor (rotr 2 x) (rotr 13 x)) (rotr 22 x).
Definition Sigma1 (x : Z) : Z := Z.lxor (Z.lxor (rotr 6 x) (rotr 11 x)) (rotr 25 x).
Definition sigma0 (x : Z) : Z := Z.lxor (Z.lxor (rotr 7 x) (rotr 18 x)) (shr 3 x).
Definition sigma1 (x : Z) : Z := Z.lxor (Z.lxor (rotr 17 x) (rotr 19 x)) (shr 10 x).

(** The constants of the standard are the first 32 bits of the
    fractional parts of the cube roots (for [K]) and of the square roots
    (for [H0]) of the first primes. *)
Definition is_prime (p : Z) : bool :=
  forallb (fun d => negb (p mod Z.of_nat d =? 0)) (seq 2 (Z.to_nat p - 2)).

Definition primes (n : nat) : list Z :=
  firstn n (filter is_prime (map Z.of_nat (seq 2 310))).

(** The integer cube root of [x], built from bit [n - 1] down. *)
Fixpoint cube_root (n : nat) (x r : Z) : Z :=
  match n with
  | O => r
  | S n' =>
      let r' := r + 2 ^ Z.of_nat n' in
      cube_root n' x (if r' * r' * r' <=? x then r' else r)
  end.

Definition K : list Z :=
  Eval vm_compute in map (fun p => wrap (cube_root 40 (p * 2 ^ 96) 0)) (primes 64).

Definition H0 : list Z :=
  Eval vm_compute in map (fun p => wrap (Z.sqrt (p * 2 ^ 64))) (primes 8).

(** UTF-8 of a string of code units below 256: one byte below 128,
    two bytes from 128 on. *)
Fixpoint utf8 (s : string) : list Z :=
  match s with
  | EmptyString => []
  | String c s' =>
      let n := Z.of_nat (nat_of_ascii c) in
      if n <? 128 then n :: utf8 s'
      else (192 + n / 64) :: (128 + n mod 64) :: utf8 s'
  end.

(** Big-endian bytes of [x], [n] of them. *)
Fixpoint be_bytes (n : nat) (x : Z) : list Z :=
  match n with
  | O => []
  | S n' => (x / 256 ^ Z.of_nat n') mod 256 :: be_bytes n' x
  end.

(** The message, a 1 bit, zeros up to 56 modulo 64 bytes, and the bit
    length on 8 bytes. *)
Definition pad (msg : list Z) : list Z :=
  let len := Z.of_nat (length msg) in
  let zeros := Z.to_nat ((55 - len) mod 64) in
  msg ++ [128] ++ repeat 0 zeros ++ be_bytes 8 (8 * len).

Fixpoint words (n : nat) (bytes : list Z) : list Z :=
  match n, bytes with
  | S n', b0 :: b1 :: b2 :: b3 :: rest =>
      (((b0 * 256 + b1) * 256 + b2) * 256 + b3) :: words n' rest
  | _, _ => []
  end.

(** The message schedule: 16 words of the block extended to 64. *)
Fixpoint schedule (n : nat) (w : list Z) : list Z :=
  match n with
  | O => w
  | S n' =>
      let t := length w in
      let at_ (k : nat) := nth (t - k) w 0 in
      schedule n' (w ++ [add32 (add32 (sigma1 (at_ 2%nat)) (at_ 7%nat))
                               (add32 (sigma0 (at_ 15%nat)) (at_ 16%nat))])
  end.

Definition round (h : list Z) (kw : Z * Z) : list Z :=
  match h with
  | [a; b; c; d; e; f; g; hh] =>
      let t1 := add32 (add32 (add32 hh (Sigma1 e)) (add32 (Ch e f g) (fst kw))) (snd kw) in
      let t2 := add32 (Sigma0 a) (Maj a b c) in
      [add32 t1 t2; a; b; c; add32 d t1; e; f; g]
  | _ => h
  end.

Definition compress (h : list Z) (block : list Z) : list Z :=
  let w := schedule 48 (words 16 block) in
  let h' := fold_left round (combine K w) h in
  map (fun p : Z * Z => add32 (fst p) (snd p)) (combine h h').

Fixpoint blocks (n : nat) (h : list Z) (bytes : list Z) : list Z :=
  match n with
  | O => h
  | S n' => blocks n' (compress h (firstn 64 bytes)) (skipn 64 bytes)
  end.

Definition digest (msg : list Z) : list Z :=
  let p := pad msg in
  blocks (length p / 64)%nat H0 p.

Definition hexdigit (d : Z) : ascii :=
  ascii_of_nat (Z.to_nat (if d <? 10 then 48 + d else 87 + d)).

Fixpoint hex_of (n : nat) (x : Z) : string :=
  match n with
  | O => EmptyString
  | S n' => String (hexdigit ((x / 16 ^ Z.of_nat n') mod 16)) (hex_of n' x)
  end.

(** [createHash('sha256').update(s).digest('hex')]. *)
Definition hex (s : string) : string :=
  fold_right (fun w acc => hex_of 8 w +:+ acc) EmptyString (digest (utf8 s)).

End Sha256.

(** ** HTTP messages *)

(** The JSON bodies the handlers send. *)
Inductive Body : Type :=
| ErrorBody (error : string)
| MessageBody (message : string)
| SimplifiedBody (simplifiedText : string)
| WordInfoBody (word definition : string) (synonyms : list string).

(** [res.status(n).json(b)]; [res.json(b)] alone sends status 200. *)
Record Response : Type := { status : Z; body : Body }.

Definition json (b : Body) : Response := {| status := 200; body := b |}.
Definition status_json (n : Z) (b : Body) : Response := {| status := n; body := b |}.

(** The request headers the guard reads. *)
Record Headers : Type :=
  { h_origin : option string; h_referer : option string; h_token : option string }.

(** What a middleware does with a request: [next()] or a response. *)
Inductive Guard : Type :=
| next
| respond (r : Response).

(** An uploaded file, as multer hands it over. *)
Definition Buffer : Type := list Byte.byte.
Record File : Type := { mimetype : string; buffer : Buffer }.

(** The fields of a [/simplify] request: [req.body.audience],
    [req.body.text], [req.body.url] and [req.file]. *)
Record SimplifyRequest : Type :=
  { audience : option string;
    text : option string;
    url : option string;
    file : option File }.

(** A JavaScript number: NaN, an infinity, or a finite value, which is a
    rational.  Comparisons of a number with 1 and with 10 are exact. *)
Inductive Number : Type :=
| NaN
| Infinity (negative : bool)
| Finite (q : Q).

(** The body of a [/feedback] request. *)
Record Feedback : Type := { rating : option Number; feedback_text : option string }.

(** The completion API's reply: [response.data]. *)
Record Message : Type := { content : option string }.
Record Choice : Type := { message : option Message }.
Record Completion : Type := { choices : list Choice }.

(** ** Exceptions, effects and the outside world *)

(** A thrown value: an [Error] with its message, or anything else. *)
Inductive Thrown : Type :=
| JsError (message : string)
| NotAnError.

Inductive Outcome (A : Type) : Type :=
| Ok (a : A)
| Throw (e : Thrown).
Arguments Ok {A} a.
Arguments Throw {A} e.

(** The members of the enum [TargetAudiences] of [./types]. *)
Inductive TargetAudiences : Type :=
| ScientistsResearchers
| StudentsAcademics
| IndustryProfessionals
| JournalistsMedia
| GeneralPublic.

(** The environment variables the module reads when it is loaded.
    [WORD_LIMIT] is [Number(process.env.WORD_LIMIT)] when that is an
    integer, and [None] when it is NaN. *)
Record Env : Type :=
  { OPENAI_API_KEY : option string;
    DEV_TOKEN : option string;
    EXTENSION_ID : option string;
    WORD_LIMIT : option Z }.

(** What lies outside of [app.ts].  Each field answers for one request:
    - [enum_value]: the value of each member of [TargetAudiences];
    - [extractTextFromPdf], [extractTextFromWord] of [./utils/fileUtils];
    - [toString_utf8]: [buffer.toString('utf-8')];
    - [validateUrl] of [./utils/validateUrl], which resolves or rejects;
    - [post apiKey prompt]: [createApiClient(apiKey).post('', ...)] with
      the fixed model, token cap and temperature, and [prompt] as the
      content of the one message;
    - [redis_rejects key value]: the error [redisClient.set] rejects
      with, if it does;
    - [Date_now]: [Date.now()]. *)
Record World : Type :=
  { enum_value : TargetAudiences -> string;
    extractTextFromPdf : Buffer -> Outcome string;
    extractTextFromWord : Buffer -> Outcome string;
    toString_utf8 : Buffer -> string;
    validateUrl : string -> Outcome unit;
    post : string -> string -> Outcome Completion;
    redis_rejects : string -> string -> option Thrown;
    Date_now : Z }.

(** What a handler can change: the Redis store, and the prompts sent to
    the completion API so far (with the key they were sent under). *)
Record Store : Type :=
  { redis : gmap string string;
    posted : list (string * string) }.

(** The handler monad: state passing over [Store], with exceptions. *)
Definition M (A : Type) : Type := Store -> Outcome A * Store.

Definition ret {A : Type} (a : A) : M A := fun s => (Ok a, s).
Definition throw {A : Type} (e : Thrown) : M A := fun s => (Throw e, s).
Definition lift {A : Type} (o : Outcome A) : M A := fun s => (o, s).

Definition bind {A B : Type} (m : M A) (k : A -> M B) : M B :=
  fun s =>
    match m s with
    | (Ok a, s') => k a s'
    | (Throw e, s') => (Throw e, s')
    end.

(** [try { m } catch (error) { throw h error }]. *)
Definition rethrow {A : Type} (m : M A) (h : Thrown -> Thrown) : M A :=
  fun s =>
    match m s with
    | (Ok a, s') => (Ok a, s')
    | (Throw e, s') => (Throw (h e), s')
    end.

(** [try { m } catch (error) { h error }] around a whole handler, where
    both blocks end by sending a response. *)
Definition try_catch (m : M Response) (h : Thrown -> Response) : Store -> Response * Store :=
  fun s =>
    match m s with
    | (Ok r, s') => (r, s')
    | (Throw e, s') => (h e, s')
    end.

Notation "'let*' x ':=' m 'in' k" := (bind m (fun x => k))
  (at level 10, x name, m at level 100, k at level 200).

(** [error instanceof Error ? error.message : fallback]. *)
Definition message_or (error : Thrown) (fallback : string) : string :=
  match error with
  | JsError m => m
  | NotAnError => fallback
  end.

(** The message of the [TypeError] that reading property [p] of
    [undefined] throws. *)
Definition TypeError_reading (p : string) : Thrown :=
  JsError ("Cannot read properties of undefined (reading '" +:+ p +:+ "')").

(** ** The module of [app.ts] *)

Section App.

Variable env : Env.
Variable w : World.

(** *** Module constants *)

Definition apiKey : string := Js.or_default (OPENAI_API_KEY env) "error".
Definition TOKEN : string := Js.or_default (DEV_TOKEN env) "No token provided".
Definition allowedOrigin : string := "https://simplifymytext.org".
Definition allowedExtension : string := Js.or_default (EXTENSION_ID env) "error".

(** [Number(process.env.WORD_LIMIT) || 5000]: NaN and 0 are falsy. *)
Definition wordLimit : Z :=
  match WORD_LIMIT env with
  | Some n => if n =? 0 then 5000 else n
  | None => 5000
  end.

Definition extension_token : string := Sha256.hex TOKEN.

(** *** The access guard *)

(** [token === extension_token]. *)
Definition strict_eq (token : option string) (s : string) : bool :=
  match token with
  | Some t => String.eqb t s
  | None => false
  end.

Definition access_denied : Response :=
  status_json 403 (MessageBody "Access denied: Requests from your origin are not allowed.").

Definition checkOrigin (headers : Headers) : Guard :=
  let origin := Js.or_ (h_origin headers) (h_referer headers) in
  let token := h_token headers in
  if Js.truthy origin
     && match origin with
        | Some origin =>
            Js.startsWith origin allowedOrigin
            || (Js.startsWith origin allowedExtension && strict_eq token extension_token)
            || Js.startsWith origin "http://localhost"
            || Js.startsWith origin "https://localhost"
        | None => false
        end
  then next
  else respond access_denied.

(** *** simplifyText *)

Definition instructions : string :=
  "Do no write very long sentences. The language of the simplified text should match the language of the text I provide you with. If the provided text is a URL, you need to visit the URL, summarise the contents, and finally simplify the summary into plain language. Your response should only the contain the summary and nothing else.".

(** The object literal [targetAudience]: one property per member of
    the enum, written in the order of the source (a later property
    replaces an earlier one of the same key). *)
Definition targetAudience : gmap string string :=
  <[enum_value w GeneralPublic := "the general public (non-expert audience)"]>
  (<[enum_value w JournalistsMedia := "journalists and media professionals"]>
  (<[enum_value w IndustryProfessionals := "industry professionals"]>
  (<[enum_value w StudentsAcademics := "students and academics"]>
  (<[enum_value w ScientistsResearchers := "scientists and researchers"]> ∅)))).

Definition userPrompt (text : string) (userGroup : option string) : string :=
  let audience := targetAudience !! Js.template userGroup in
  Js.LF +:+ "Simplify the following text for " +:+ Js.template audience +:+ ":"
  +:+ Js.LF +:+ Js.LF
  +:+ Js.DQUOTE +:+ Js.trim text +:+ Js.DQUOTE +:+ Js.LF +:+ Js.LF
  +:+ "Instructions: " +:+ instructions +:+ Js.LF +:+ "  ".

(** [apiClient.post('', {...})], recorded in the store. *)
Definition apiClient_post (key prompt : string) : M Completion :=
  fun s =>
    (post w key prompt,
     {| redis := redis s; posted := posted s ++ [(key, prompt)] |}).

(** [response.data.choices[0].message.content.trim()]. *)
Definition first_content_trimmed (data : Completion) : Outcome string :=
  match choices data with
  | [] => Throw (TypeError_reading "message")
  | c :: _ =>
      match message c with
      | None => Throw (TypeError_reading "content")
      | Some m =>
          match content m with
          | None => Throw (TypeError_reading "trim")
          | Some s => Ok (Js.trim s)
          end
      end
  end.

Definition simplifyText (text : string) (userGroup : option string) (apiKey : string)
  : M string :=
  rethrow
    (let* response := apiClient_post apiKey (userPrompt text userGroup) in
     lift (first_content_trimmed response))
    (fun error =>
       let errorMessage := message_or error "An unknown error occurred." in
       JsError ("Text simplification failed: " +:+ errorMessage)).

(** *** saveToRedis *)

Definition cache_key (originalText : string) (targetAudience : option string)
                     (uniqueId : string) : string :=
  "prompt|:|" +:+ originalText +:+ "|:|" +:+ Js.template targetAudience
  +:+ "|:|" +:+ uniqueId.

(** [redisClient.set(key, value)]. *)
Definition redisClient_set (key value : string) : M unit :=
  fun s =>
    match redis_rejects w key value with
    | Some e => (Throw e, s)
    | None => (Ok tt, {| redis := <[key := value]> (redis s); posted := posted s |})
    end.

Definition saveToRedis (originalText : string) (targetAudience : option string)
                       (responsePrompt : string) : M unit :=
  let uniqueId := Js.of_Z (Date_now w) in
  let key := cache_key originalText targetAudience uniqueId in
  redisClient_set key responsePrompt.

(** *** POST /simplify *)

Definition handleFileInput (file : File) : M string :=
  if String.eqb (mimetype file) "application/pdf" then
    lift (extractTextFromPdf w (buffer file))
  else if String.eqb (mimetype file)
            "application/vnd.openxmlformats-officedocument.wordprocessingml.document" then
    lift (extractTextFromWord w (buffer file))
  else if String.eqb (mimetype file) "text/plain" then
    ret (toString_utf8 w (buffer file))
  else
    throw (JsError "Unsupported file type").

(** The function the handler calls at once to resolve its input:
    the file, else the url, else the text, else an exception. *)
Definition resolve_input (req : SimplifyRequest) : M string :=
  match file req, Js.truthy_string (url req), Js.truthy_string (text req) with
  | Some file, _, _ => handleFileInput file
  | None, Some url, _ => ret url
  | None, None, Some text => ret text
  | None, None, None => throw (JsError "No valid input provided")
  end.

Definition simplify_try (req : SimplifyRequest) : M Response :=
  let* inputText := resolve_input req in
  if negb (Js.truthy (url req)) && (Z.of_nat (String.length inputText) >? wordLimit) then
    ret (status_json 400
           (ErrorBody ("Text exceeds the word limit of " +:+ Js.of_Z wordLimit
                       +:+ " characters.")))
  else
    let* _ := match Js.truthy_string (url req) with
              | Some url => lift (validateUrl w url)
              | None => ret tt
              end in
    let* simplifiedText := simplifyText inputText (audience req) apiKey in
    let* _ := saveToRedis inputText (audience req) simplifiedText in
    ret (json (SimplifiedBody simplifiedText)).

Definition simplify_catch (error : Thrown) : Response :=
  let errorMessage := message_or error "An unknown error occurred." in
  status_json 500
    (ErrorBody (Js.or_default (Some errorMessage)
                  "An error occurred during text simplification.")).

Definition simplify (req : SimplifyRequest) : Store -> Response * Store :=
  try_catch (simplify_try req) simplify_catch.

(** *** GET /word-info *)

Definition wordInfoPrompt (word : string) : string :=
  Js.LF +:+ "  Provide the following details for the word " +:+ Js.DQUOTE +:+ word
  +:+ Js.DQUOTE +:+ ":" +:+ Js.LF
  +:+ "  1. A clear and concise definition in plain language. If no definition exists, say "
  +:+ Js.DQUOTE +:+ "No definitions found." +:+ Js.DQUOTE +:+ Js.LF
  +:+ "  2. A list of synonyms (if any). If there are no synonyms, say "
  +:+ Js.DQUOTE +:+ "No synonyms found." +:+ Js.DQUOTE +:+ Js.LF.

(** [response.data.choices[0]?.message?.content || ""]. *)
Definition responseContent (data : Completion) : string :=
  Js.or_default
    (match choices data with
     | [] => None
     | c :: _ => match message c with
                 | None => None
                 | Some m => content m
                 end
     end)
    EmptyString.

(** [line.split(":")[1]?.trim()]. *)
Definition second_field (line : string) : option string :=
  match nth_error (Js.split ":" line) 1 with
  | Some field => Some (Js.trim field)
  | None => None
  end.

Definition word_info_try (word : string) : M Response :=
  let* response := apiClient_post apiKey (wordInfoPrompt word) in
  let responseContent := responseContent response in
  let matches := map second_field (Js.split (ascii_of_nat 10) responseContent) in
  let definitionMatch := mjoin (nth_error matches 0) in
  let synonymsMatch := mjoin (nth_error matches 1) in
  let definition := Js.or_default definitionMatch "Definition not found" in
  let synonyms :=
    match Js.truthy_string synonymsMatch with
    | Some synonymsMatch => map Js.trim (Js.split "," synonymsMatch)
    | None => ["No synonyms found"]
    end in
  ret (json (WordInfoBody word definition synonyms)).

Definition word_info_catch (error : Thrown) : Response :=
  status_json 500 (ErrorBody "Error fetching word information").

Definition word_info (query_word : option string) : Store -> Response * Store :=
  match Js.truthy_string query_word with
  | None => fun s => (status_json 400 (ErrorBody "No word provided"), s)
  | Some word => try_catch (word_info_try word) word_info_catch
  end.

(** *** POST /feedback *)

(** [isNaN(x)]: [undefined] converts to NaN. *)
Definition isNaN (x : option Number) : bool :=
  match x with
  | None | Some NaN => true
  | Some _ => false
  end.

(** [x < y] on numbers; a comparison with NaN is false. *)
Definition Number_lt (x y : Number) : bool :=
  match x, y with
  | NaN, _ | _, NaN => false
  | Infinity true, Infinity true => false
  | Infinity true, _ => true
  | _, Infinity true => false
  | Infinity false, _ => false
  | _, Infinity false => true
  | Finite p, Finite q => negb (Qle_bool q p)
  end.

Definition Number_of_Z (n : Z) : Number := Finite (inject_Z n).

(** [x < n] and [x > n] for a possibly undefined [x]: [undefined]
    converts to NaN. *)
Definition lt_int (x : option Number) (n : Z) : bool :=
  match x with
  | Some x => Number_lt x (Number_of_Z n)
  | None => false
  end.
Definition gt_int (x : option Number) (n : Z) : bool :=
  match x with
  | Some x => Number_lt (Number_of_Z n) x
  | None => false
  end.

Definition feedback (body : Feedback) : Response :=
  let rating := rating body in
  if isNaN rating || lt_int rating 1 || gt_int rating 10 then
    status_json 400 (ErrorBody "Rating must be a number between 1 and 10")
  else
    status_json 200 (MessageBody "Rating submitted successfully").

End App.

(** * The vocabulary of the properties *)

(** [s] starts with [p]: [s] is [p] followed by something. *)
Definition starts_with (s p : string) : Prop := exists rest, s = p +:+ rest.

(** [p] is the part of [line] after its first colon, up to the next
    colon when there is one. *)
Definition after_colon (line p : string) : Prop :=
  exists before rest,
    Js.includes before ":" = false /\ Js.includes p ":" = false
    /\ (line = before +:+ ":" +:+ p \/ line = before +:+ ":" +:+ p +:+ ":" +:+ rest).

(** Line [n] of [reply] (lines are numbered from 0) has the expected
    format, with the value [v]: [v] is the part after the line's colon,
    trimmed, and it is not empty. *)
Definition parsed_field (reply : string) (n : nat) (v : string) : Prop :=
  exists line p,
    nth_error (Js.split (ascii_of_nat 10) reply) n = Some line
    /\ after_colon line p /\ v = Js.trim p /\ v <> EmptyString.

(** A rating is a number from 1 to 10. *)
Definition rating_in_range (rating : option Number) : Prop :=
  exists q, rating = Some (Finite q) /\ (1 <= q)%Q /\ (q <= 10)%Q.

Section Vocabulary.

Variable env : Env.
Variable w : World.

(** The store after [apiClient.post]: one more prompt, same cache. *)
Definition after_post (key prompt : string) (s : Store) : Store :=
  {| redis := redis s; posted := posted s ++ [(key, prompt)] |}.

(** The length check of the handler lets [inputText] through. *)
Definition length_ok (req : SimplifyRequest) (inputText : string) : Prop :=
  Js.truthy (url req) = true \/ Z.of_nat (String.length inputText) <= wordLimit env.

(** The URL of the request, if it has one, is accepted. *)
Definition url_ok (req : SimplifyRequest) : Prop :=
  forall u, Js.truthy_string (url req) = Some u -> validateUrl w u = Ok tt.

(** The run of the handler on [req] gets as far as a simplification:
    the input resolves to [inputText], passes the checks, and
    [simplifyText] returns [t] for it. *)
Definition simplified (req : SimplifyRequest) (s : Store) (inputText t : string) : Prop :=
  exists s1,
    resolve_input w req s = (Ok inputText, s)
    /\ length_ok req inputText /\ url_ok req
    /\ simplifyText w inputText (audience req) (apiKey env) s = (Ok t, s1).

Definition too_long : Response :=
  status_json 400
    (ErrorBody ("Text exceeds the word limit of " +:+ Js.of_Z (wordLimit env)
                +:+ " characters.")).

Definition key_of (req : SimplifyRequest) (inputText : string) : string :=
  cache_key inputText (audience req) (Js.of_Z (Date_now w)).

(** The runs of the handler, one constructor per way out of it. *)
Inductive simplify_run (req : SimplifyRequest) (s : Store) : Response -> Store -> Prop :=
| run_unresolved e :
    resolve_input w req s = (Throw e, s) ->
    simplify_run req s (simplify_catch e) s
| run_too_long inputText :
    resolve_input w req s = (Ok inputText, s) ->
    Js.truthy (url req) = false ->
    wordLimit env < Z.of_nat (String.length inputText) ->
    simplify_run req s too_long s
| run_url_rejected inputText u e :
    resolve_input w req s = (Ok inputText, s) ->
    Js.truthy_string (url req) = Some u -> validateUrl w u = Throw e ->
    simplify_run req s (simplify_catch e) s
| run_simplification_failed inputText e s1 :
    resolve_input w req s = (Ok inputText, s) ->
    length_ok req inputText -> url_ok req ->
    simplifyText w inputText (audience req) (apiKey env) s = (Throw e, s1) ->
    simplify_run req s (simplify_catch e) s1
| run_cache_failed inputText t s1 e :
    resolve_input w req s = (Ok inputText, s) ->
    length_ok req inputText -> url_ok req ->
    simplifyText w inputText (audience req) (apiKey env) s = (Ok t, s1) ->
    redis_rejects w (key_of req inputText) t = Some e ->
    simplify_run req s (simplify_catch e) s1
| run_success inputText t s1 :
    resolve_input w req s = (Ok inputText, s) ->
    length_ok req inputText -> url_ok req ->
    simplifyText w inputText (audience req) (apiKey env) s = (Ok t, s1) ->
    redis_rejects w (key_of req inputText) t = None ->
    simplify_run req s (json (SimplifiedBody t))
      {| redis := <[key_of req inputText := t]> (redis s1); posted := posted s1 |}.

End Vocabulary.

(** ** A concrete deployment, for the examples

    A word limit of ten characters, an API that always answers with one
    choice, a URL validator that wants [http] in front, and a Redis that
    accepts every write. *)

Definition demo_env : Env :=
  {| OPENAI_API_KEY := Some "sk-demo";
     DEV_TOKEN := Some "abc";
     EXTENSION_ID := Some "chrome-extension://klartext";
     WORD_LIMIT := Some 10 |}.

Definition reply_with (text : string) : Completion :=
  {| choices := [ {| message := Some {| content := Some text |} |} ] |}.

Definition demo_reply : Completion := reply_with "  Plain words. ".

Definition demo_word_reply : Completion :=
  reply_with ("1. Definition: A small domesticated animal." +:+ Js.LF
              +:+ "2. Synonyms: feline, kitty , puss").

Definition demo_world : World :=
  {| enum_value := fun a =>
       match a with
       | ScientistsResearchers => "Scientists and Researchers"
       | StudentsAcademics => "Students and Academics"
       | IndustryProfessionals => "Industry Professionals"
       | JournalistsMedia => "Journalists and Media Professionals"
       | GeneralPublic => "General Public"
       end;
     extractTextFromPdf := fun b => Ok (string_of_list_byte b);
     extractTextFromWord := fun _ => Throw (JsError "Could not read the document");
     toString_utf8 := string_of_list_byte;
     validateUrl := fun u =>
       if Js.startsWith u "http" then Ok tt else Throw (JsError "Invalid URL");
     post := fun _ prompt =>
       if Js.startsWith prompt (Js.LF +:+ "Simplify") then Ok demo_reply
       else Ok demo_word_reply;
     redis_rejects := fun _ _ => None;
     Date_now := 1700000000000 |}.

(** The same deployment with another reply to every prompt. *)
Definition demo_world_replying (data : Completion) : World :=
  {| enum_value := enum_value demo_world;
     extractTextFromPdf := extractTextFromPdf demo_world;
     extractTextFromWord := extractTextFromWord demo_world;
     toString_utf8 := toString_utf8 demo_world;
     validateUrl := validateUrl demo_world;
     post := fun _ _ => Ok data;
     redis_rejects := redis_rejects demo_world;
     Date_now := Date_now demo_world |}.

Definition empty_store : Store := {| redis := ∅; posted := [] |}.

(** A request with no file, no url and no text. *)
Definition no_input : SimplifyRequest :=
  {| audience := Some "General Public"; text := None; url := None; file := None |}.

(** A plain-text upload of 39 characters together with a url. *)
Definition long_file : File :=
  {| mimetype := "text/plain";
     buffer := list_byte_of_string "This text has more than ten characters." |}.

Definition file_and_url : SimplifyRequest :=
  {| audience := Some "General Public"; text := None;
     url := Some "https://example.org"; file := Some long_file |}.

Definition short_text : SimplifyRequest :=
  {| audience := Some "General Public"; text := Some "Short one";
     url := None; file := None |}.

Definition bad_url : SimplifyRequest :=
  {| audience := Some "General Public"; text := None;
     url := Some "not a url"; file := None |}.

Definition picture : File :=
  {| mimetype := "image/png"; buffer := list_byte_of_string "PNG" |}.

Definition picture_upload : SimplifyRequest :=
  {| audience := Some "General Public"; text := None; url := None; file := Some picture |}.

Definition extension_headers (token : option string) : Headers :=
  {| h_origin := Some "chrome-extension://klartext/popup.html";
     h_referer := None;
     h_token := token |}.

(** ** The rest of the module

    The CORS callback of [app.use(cors({ origin: ... }))], the table
    behind [targetAudience], and replies in the format the word-info
    prompt asks for. *)

(** The [origin] function handed to [cors]: it gets the request's
    [Origin] header and calls back with [true] or with an error. *)
Definition cors_origin (env : Env) (origin : option string) : Outcome bool :=
  if negb (Js.truthy origin)
     || match origin with
        | Some origin =>
            Js.startsWith origin allowedOrigin
            || Js.startsWith origin (allowedExtension env)
            || Js.startsWith origin "http://localhost"
            || Js.startsWith origin "https://localhost"
        | None => false
        end
  then Ok true
  else Throw (JsError "Not allowed by CORS").

(** The phrase the record [targetAudience] gives to each member of the
    enum. *)
Definition audience_phrase (a : TargetAudiences) : string :=
  match a with
  | ScientistsResearchers => "scientists and researchers"
  | StudentsAcademics => "students and academics"
  | IndustryProfessionals => "industry professionals"
  | JournalistsMedia => "journalists and media professionals"
  | GeneralPublic => "the general public (non-expert audience)"
  end.

(** A definition the word-info parser reads back as it is: no colon or
    line feed inside, no white space at its ends, not empty. *)
Definition plain (x : string) : Prop :=
  Js.includes x ":" = false /\ Js.includes x (ascii_of_nat 10) = false
  /\ Js.trim x = x /\ x <> EmptyString.

(** A synonym the parser reads back as it is: as a definition, and with
    no comma inside. *)
Definition item (x : string) : Prop :=
  Js.includes x ":" = false /\ Js.includes x "," = false
  /\ Js.includes x (ascii_of_nat 10) = false
  /\ Js.trim x = x /\ x <> EmptyString.

(** A label of a reply line: no colon and no line feed. *)
Definition label (x : string) : Prop :=
  Js.includes x ":" = false /\ Js.includes x (ascii_of_nat 10) = false.

(** A string that ends with a character that is no white space. *)
Definition ends_tight (s : string) : Prop :=
  exists c, Js.last_char s = Some c /\ Js.isWhiteSpace c = false.

(** [x1, x2, ..., xn]. *)
Definition comma_list (xs : list string) : string :=
  match xs with
  | [] => EmptyString
  | x :: rest => Js.join "," (x :: map (String " ") rest)
  end.

(** A reply of two lines, [label1: definition] and
    [label2: synonym, synonym, ...]. *)
Definition formatted_reply (label1 definition label2 : string) (synonyms : list string)
  : string :=
  label1 +:+ ": " +:+ definition +:+ Js.LF +:+ label2 +:+ ": " +:+ comma_list synonyms.

(** The demo deployment at another time, and with the completion API
    down. *)
Definition demo_world_at (now : Z) : World :=
  {| enum_value := enum_value demo_world;
     extractTextFromPdf := extractTextFromPdf demo_world;
     extractTextFromWord := extractTextFromWord demo_world;
     toString_utf8 := toString_utf8 demo_world;
     validateUrl := validateUrl demo_world;
     post := post demo_world;
     redis_rejects := redis_rejects demo_world;
     Date_now := now |}.

Definition demo_world_down : World :=
  {| enum_value := enum_value demo_world;
     extractTextFromPdf := extractTextFromPdf demo_world;
     extractTextFromWord := extractTextFromWord demo_world;
     toString_utf8 := toString_utf8 demo_world;
     validateUrl := validateUrl demo_world;
     post := fun _ _ => Throw (JsError "Request failed with status code 503");
     redis_rejects := redis_rejects demo_world;
     Date_now := Date_now demo_world |}.

Definition text_and_url : SimplifyRequest :=
  {| audience := Some "General Public"; text := Some "Some text";
     url := Some "https://example.org"; file := None |}.

(** A reply in the requested format, and a Redis that is down. *)
Definition demo_formatted_reply : Completion :=
  reply_with (formatted_reply "1. Definition" "A small, domesticated animal."
                "2. Synonyms" ["feline"; "kitty"; "puss"]).

Definition demo_world_without_redis : World :=
  {| enum_value := enum_value demo_world;
     extractTextFromPdf := extractTextFromPdf demo_world;
     extractTextFromWord := extractTextFromWord demo_world;
     toString_utf8 := toString_utf8 demo_world;
     validateUrl := validateUrl demo_world;
     post := post demo_world;
     redis_rejects := fun _ _ => Some (JsError "The client is closed");
     Date_now := Date_now demo_world |}.

Definition long_text : SimplifyRequest :=
  {| audience := Some "General Public"; text := Some "A text that is too long";
     url := None; file := None |}.

(** ** The repository's other copy of the module

    The repository holds a second, earlier copy of the module: the same
    guard without the extension, and a [/simplify] handler without url
    input, without the cache, and with its own [simplifyText].  Its
    handler is embedded here with the same world and store. *)

Module Legacy.

(** The handler sends JSON objects and, for a text that is too long, a
    bare JSON string. *)
Inductive Payload : Type :=
| Object (b : Body)
| Text (s : string).

Record Reply : Type := { code : Z; payload : Payload }.

(** [req.body.audience], [req.body.text] and [req.file]. *)
Record Request : Type :=
  { r_audience : option string; r_text : option string; r_file : option File }.

(** [try { m } catch (error) { return h error }]. *)
Definition recover {A : Type} (m : M A) (h : Thrown -> A) : M A :=
  fun s =>
    match m s with
    | (Ok a, s') => (Ok a, s')
    | (Throw e, s') => (Ok (h e), s')
    end.

(** The [switch] of [simplifyText]: four audiences by name, and the
    general public for everything else. *)
Definition prompt (text : string) (userGroup : option string) : string :=
  let for_ (phrase : string) :=
    "Simplify the following text for " +:+ phrase +:+ ":" +:+ Js.LF +:+ Js.LF +:+ text in
  match userGroup with
  | Some g =>
      if String.eqb g "Scientists and Researchers" then for_ "scientists and researchers"
      else if String.eqb g "Students and Academics" then for_ "students and academics"
      else if String.eqb g "Industry Professionals" then for_ "industry professionals"
      else if String.eqb g "Journalists and Media Professionals"
           then for_ "journalists and media professionals"
      else for_ "the general public (non-expert audience)"
  | None => for_ "the general public (non-expert audience)"
  end.

Section Handlers.

Variable env : Env.
Variable w : World.

(** [axios.post(url, {...}, { headers })], recorded in the store. *)
Definition axios_post (key prompt : string) : M Completion :=
  fun s =>
    (post w key prompt,
     {| redis := redis s; posted := (posted s ++ [(key, prompt)])%list |}).

Definition simplifyText (text : string) (userGroup : option string) : M string :=
  recover
    (let* response := axios_post (apiKey env) (prompt text userGroup) in
     lift (first_content_trimmed response))
    (fun error =>
       let errorMessage := message_or error "Unknown error" in
       "Error during text simplification: " +:+ errorMessage).

(** The [if (file) { try { ... } catch { ... } }] block: the text it
    leaves in [extractedText], or the response it returns with. *)
Definition extract (file : File) : Reply + option string :=
  if String.eqb (mimetype file) "application/pdf" then
    match extractTextFromPdf w (buffer file) with
    | Ok t => inr (Some t)
    | Throw _ => inl {| code := 500; payload := Object (ErrorBody "Error processing file") |}
    end
  else if String.eqb (mimetype file)
            "application/vnd.openxmlformats-officedocument.wordprocessingml.document" then
    match extractTextFromWord w (buffer file) with
    | Ok t => inr (Some t)
    | Throw _ => inl {| code := 500; payload := Object (ErrorBody "Error processing file") |}
    end
  else if String.eqb (mimetype file) "text/plain" then
    inr (Some (toString_utf8 w (buffer file)))
  else
    inl {| code := 400; payload := Object (ErrorBody "Unsupported file type") |}.

Definition simplify (req : Request) : Store -> Reply * Store :=
  fun s =>
    if match r_file req with Some _ => false | None => true end
       && negb (Js.truthy (r_text req))
    then
      ({| code := 400;
          payload := Object (ErrorBody "No text or file provided for simplification.") |}, s)
    else
      match match r_file req with
            | Some file => extract file
            | None => inr (r_text req)
            end with
      | inl reply => (reply, s)
      | inr extractedText =>
          match Js.truthy_string extractedText with
          | None =>
              ({| code := 400;
                  payload := Object (ErrorBody "No text extracted from file") |}, s)
          | Some extractedText =>
              if Z.of_nat (String.length extractedText) >? wordLimit env then
                ({| code := 400;
                    payload := Text ("Text is too long. Maximum length is "
                                     +:+ Js.of_Z (wordLimit env) +:+ " characters") |}, s)
              else
                match simplifyText extractedText (r_audience req) s with
                | (Ok simplifiedText, s') =>
                    ({| code := 200; payload := Object (SimplifiedBody simplifiedText) |}, s')
                | (Throw _, s') =>
                    ({| code := 500;
                        payload := Object (ErrorBody "Error during text simplification") |},
                     s')
                end
          end
      end.

End Handlers.

End Legacy.

(** Requests for the other copy of the handler. *)
Definition legacy_no_input : Legacy.Request :=
  {| Legacy.r_audience := Some "General Public"; Legacy.r_text := None;
     Legacy.r_file := None |}.

Definition legacy_picture : Legacy.Request :=
  {| Legacy.r_audience := None; Legacy.r_text := Some "ignored";
     Legacy.r_file := Some picture |}.

Definition legacy_short_text : Legacy.Request :=
  {| Legacy.r_audience := Some "Students and Academics"; Legacy.r_text := Some "Short one";
     Legacy.r_file := None |}.

Definition legacy_long_file : Legacy.Request :=
  {| Legacy.r_audience := None; Legacy.r_text := None; Legacy.r_file := Some long_file |}.

(** * Properties *)

(** ** SHA-256 against the published test vectors *)

Example sha256_empty :
  Sha256.hex EmptyString = "e3b0c44298fc1c149afbf4c8996fb92427ae41e4649b934ca495991b7852b855".
Proof. vm_compute. reflexivity. Qed.

Example sha256_abc :
  Sha256.hex "abc" = "ba7816bf8f01cfea414140de5dae2223b00361a396177a9cb410ff61f20015ad".
Proof. vm_compute. reflexivity. Qed.

Example sha256_two_blocks :
  Sha256.hex "abcdbcdecdefdefgefghfghighijhijkijkljklmklmnlmnomnopnopq"
  = "248d6a61d20638b8e5c026930c3e6039a33ce45964ff2167f6ecedd419db06c1".
Proof. vm_compute. reflexivity. Qed.

Example sha256_latin1 :
  Sha256.hex ("s3cret-" +:+ String (ascii_of_nat 233) EmptyString)
  = "b7e05e309d245cdb7f876e4bc6f830f4e0d9b4adee910883c30d5839f461a516".
Proof. vm_compute. reflexivity. Qed.


(** ** Strings *)

Lemma append_cons (c : ascii) (s t : string) :
  String c s +:+ t = String c (s +:+ t).
Proof. reflexivity. Qed.

Lemma append_nil (t : string) : EmptyString +:+ t = t.
Proof. reflexivity. Qed.

Lemma startsWith_spec (s p : string) :
  Js.startsWith s p = true <-> starts_with s p.
Proof.
  unfold Js.startsWith, starts_with. revert s.
  induction p as [|a p IH]; intros s.
  - destruct s; simpl; split; eauto.
  - destruct s as [|b s]; simpl.
    + split; [discriminate | intros [r Hr]; discriminate].
    + destruct (ascii_dec a b) as [->|Hab].
      * rewrite IH. split; intros [r Hr]; exists r; rewrite append_cons in *; congruence.
      * split; [discriminate | intros [r Hr]; rewrite append_cons in Hr; congruence].
Qed.

Lemma starts_with_empty (p : string) :
  starts_with EmptyString p -> p = EmptyString.
Proof. intros [r Hr]. destruct p; [reflexivity | discriminate]. Qed.

Lemma or_default_nonempty (o : option string) (d : string) :
  d <> EmptyString -> Js.or_default o d <> EmptyString.
Proof.
  intros Hd. unfold Js.or_default. destruct o as [s|]; [|exact Hd].
  destruct (String.eqb_spec s EmptyString); congruence.
Qed.

Lemma truthy_spec (o : option string) :
  Js.truthy o = true <-> exists s, o = Some s /\ s <> EmptyString.
Proof.
  unfold Js.truthy. destruct o as [s|].
  - destruct (String.eqb_spec s EmptyString) as [->|Hs]; simpl.
    + split; [discriminate | intros (s & [= <-] & Hs); congruence].
    + split; eauto.
  - split; [discriminate | intros (s & [=] & _)].
Qed.

Lemma truthy_string_Some (o : option string) (s : string) :
  Js.truthy_string o = Some s <-> o = Some s /\ s <> EmptyString.
Proof.
  unfold Js.truthy_string. destruct (Js.truthy o) eqn:Ho.
  - apply truthy_spec in Ho as (s' & -> & Hs'). split.
    + intros [= <-]. auto.
    + intros [[= <-] _]. reflexivity.
  - split; [discriminate|]. intros [-> Hs].
    assert (Js.truthy (Some s) = true) by (apply truthy_spec; eauto). congruence.
Qed.

Lemma truthy_string_None (o : option string) :
  Js.truthy_string o = None <-> Js.truthy o = false.
Proof.
  unfold Js.truthy_string. destruct (Js.truthy o) eqn:Ho; [|tauto].
  apply truthy_spec in Ho as (s & -> & _). split; discriminate.
Qed.

(** *** [trim] *)

Lemma append_assoc (a b c : string) : (a +:+ b) +:+ c = a +:+ b +:+ c.
Proof. induction a as [|x a IH]; [reflexivity|]. rewrite !append_cons. now rewrite IH. Qed.

Lemma trimStart_decompose (s : string) :
  exists l, Js.blank l = true /\ s = l +:+ Js.trimStart s.
Proof.
  induction s as [|c s (l & Hl & Hs)]; simpl.
  - exists EmptyString. auto.
  - destruct (Js.isWhiteSpace c) eqn:Hc.
    + exists (String c l). simpl. rewrite Hc, append_cons.
      split; [exact Hl | f_equal; exact Hs].
    + exists EmptyString. auto.
Qed.

Lemma trimStart_tight (s : string) (c : ascii) :
  Js.first_char (Js.trimStart s) = Some c -> Js.isWhiteSpace c = false.
Proof.
  induction s as [|d s IH]; simpl; [discriminate|].
  destruct (Js.isWhiteSpace d) eqn:Hd; [exact IH|]. simpl. congruence.
Qed.

Lemma trimEnd_decompose (s : string) :
  exists r, Js.blank r = true /\ s = Js.trimEnd s +:+ r.
Proof.
  induction s as [|c s (r & Hr & Hs)]; simpl.
  - exists EmptyString. auto.
  - destruct (Js.trimEnd s) as [|a t] eqn:Ht.
    + rewrite append_nil in Hs. subst r.
      destruct (Js.isWhiteSpace c) eqn:Hc.
      * exists (String c s). simpl. rewrite Hc. split; [exact Hr | reflexivity].
      * exists s. auto.
    + exists r. rewrite append_cons. split; [exact Hr | f_equal; exact Hs].
Qed.

Lemma trimEnd_tight (s : string) (c : ascii) :
  Js.last_char (Js.trimEnd s) = Some c -> Js.isWhiteSpace c = false.
Proof.
  induction s as [|d s IH]; simpl; [discriminate|].
  destruct (Js.trimEnd s) as [|a t] eqn:Ht.
  - destruct (Js.isWhiteSpace d) eqn:Hd; simpl; [discriminate | congruence].
  - exact IH.
Qed.

Lemma trimEnd_first_char (s : string) (c : ascii) :
  Js.first_char s = Some c -> Js.isWhiteSpace c = false ->
  Js.first_char (Js.trimEnd s) = Some c.
Proof.
  destruct s as [|d s]; simpl; [discriminate|]. intros [= ->] Hc.
  destruct (Js.trimEnd s); [rewrite Hc|]; reflexivity.
Qed.

(** [trim] removes white space, and only white space, from both ends:
    the string is its trimmed part between two blank strings, and the
    trimmed part neither starts nor ends with white space. *)
Lemma trim_spec (s : string) :
  (exists l r, Js.blank l = true /\ Js.blank r = true /\ s = l +:+ Js.trim s +:+ r)
  /\ (forall c, Js.first_char (Js.trim s) = Some c -> Js.isWhiteSpace c = false)
  /\ (forall c, Js.last_char (Js.trim s) = Some c -> Js.isWhiteSpace c = false).
Proof.
  unfold Js.trim. split; [|split].
  - destruct (trimStart_decompose s) as (l & Hl & Hs).
    destruct (trimEnd_decompose (Js.trimStart s)) as (r & Hr & Ht).
    exists l, r. repeat split; try assumption. congruence.
  - intros c Hc. destruct (Js.trimStart s) as [|d t] eqn:Ht; [discriminate|].
    assert (Hd : Js.isWhiteSpace d = false) by (apply (trimStart_tight s); now rewrite Ht).
    rewrite (trimEnd_first_char (String d t) d eq_refl Hd) in Hc. congruence.
  - apply trimEnd_tight.
Qed.

(** *** [split] and [join] *)

Lemma split_not_nil (sep : ascii) (s : string) : Js.split sep s <> [].
Proof.
  destruct s as [|c s]; simpl; [discriminate|].
  destruct (Ascii.eqb c sep); [discriminate|].
  destruct (Js.split sep s); discriminate.
Qed.

Lemma join_split (sep : ascii) (s : string) : Js.join sep (Js.split sep s) = s.
Proof.
  induction s as [|c s IH]; [reflexivity|]. simpl.
  destruct (Ascii.eqb_spec c sep) as [->|Hc].
  - pose proof (split_not_nil sep s) as Hne.
    destruct (Js.split sep s) as [|p ps] eqn:E; [congruence|].
    change (Js.join sep (EmptyString :: p :: ps))
      with (String sep (Js.join sep (p :: ps))). congruence.
  - pose proof (split_not_nil sep s) as Hne.
    destruct (Js.split sep s) as [|p ps] eqn:E; [congruence|].
    destruct ps as [|q ps]; simpl in *; rewrite ?append_cons; congruence.
Qed.

Lemma split_pieces (sep : ascii) (s : string) :
  Forall (fun p => Js.includes p sep = false) (Js.split sep s).
Proof.
  induction s as [|c s IH]; simpl; [repeat constructor|].
  destruct (Ascii.eqb c sep) eqn:Hc.
  - constructor; [reflexivity | exact IH].
  - destruct (Js.split sep s) as [|p ps]; [repeat constructor; simpl; now rewrite Hc|].
    inversion IH as [|? ? Hp Hps]; subst. constructor; [|exact Hps].
    simpl. now rewrite Hc, Hp.
Qed.

Lemma split_no_sep (sep : ascii) (a : string) :
  Js.includes a sep = false -> Js.split sep a = [a].
Proof.
  induction a as [|c a IH]; simpl; [reflexivity|]. intros H.
  apply orb_false_iff in H as [Hc Ha]. rewrite Hc, (IH Ha). reflexivity.
Qed.

Lemma split_app_sep (sep : ascii) (a rest : string) :
  Js.includes a sep = false ->
  Js.split sep (a +:+ String sep rest) = a :: Js.split sep rest.
Proof.
  induction a as [|c a IH]; simpl; intros H.
  - now rewrite Ascii.eqb_refl.
  - apply orb_false_iff in H as [Hc Ha]. rewrite Hc, (IH Ha). reflexivity.
Qed.

Lemma split_join (sep : ascii) (pieces : list string) :
  pieces <> [] ->
  Forall (fun p => Js.includes p sep = false) pieces ->
  Js.split sep (Js.join sep pieces) = pieces.
Proof.
  induction pieces as [|p ps IH]; [congruence|]. intros _ H.
  inversion H as [|? ? Hp Hps]; subst.
  destruct ps as [|q ps].
  - simpl. now apply split_no_sep.
  - change (Js.join sep (p :: q :: ps)) with (p +:+ String sep (Js.join sep (q :: ps))).
    rewrite split_app_sep by assumption. f_equal. apply IH; [discriminate | assumption].
Qed.

(** ** The access guard *)

Section Guard_properties.

Variable env : Env.

Lemma allowedExtension_nonempty : allowedExtension env <> EmptyString.
Proof. apply or_default_nonempty. discriminate. Qed.

Lemma strict_eq_spec (token : option string) (s : string) :
  strict_eq token s = true <-> token = Some s.
Proof.
  destruct token as [t|]; simpl.
  - rewrite String.eqb_eq. split; congruence.
  - split; discriminate.
Qed.

(** Every request is either passed on or answered with the one
    access-denied response. *)
Lemma checkOrigin_next_or_denied (headers : Headers) :
  checkOrigin env headers = next \/ checkOrigin env headers = respond access_denied.
Proof. unfold checkOrigin. case_match; auto. Qed.

(** C1.  The guard passes a request on exactly when the origin header
    (or, without one, the referer header) is present and starts with
    the allow-listed domain, or with [http://localhost], or with
    [https://localhost], or starts with the allowed extension
    identifier while the token header is the SHA-256 digest of the
    configured token; every other request is answered with status 403
    and the fixed access-denied message. *)
Theorem checkOrigin_allows_iff (headers : Headers) :
  (checkOrigin env headers = next <->
   exists origin,
     Js.or_ (h_origin headers) (h_referer headers) = Some origin /\
     (starts_with origin "https://simplifymytext.org"
      \/ starts_with origin "http://localhost"
      \/ starts_with origin "https://localhost"
      \/ (starts_with origin (Js.or_default (EXTENSION_ID env) "error")
          /\ h_token headers
             = Some (Sha256.hex (Js.or_default (DEV_TOKEN env) "No token provided")))))
  /\ (checkOrigin env headers = next
      \/ checkOrigin env headers
         = respond {| status := 403;
                      body := MessageBody
                        "Access denied: Requests from your origin are not allowed." |}).
Proof.
  split.
  - unfold checkOrigin.
    destruct (Js.or_ (h_origin headers) (h_referer headers)) as [o|] eqn:Ho.
    + destruct (Js.truthy (Some o)) eqn:Ht; simpl.
      * fold (allowedExtension env) (TOKEN env) (extension_token env).
        case_match eqn:Hb.
        -- split; [intros _ | reflexivity]. exists o. split; [reflexivity|].
           rewrite !orb_true_iff, andb_true_iff in Hb.
           rewrite !startsWith_spec, strict_eq_spec in Hb. tauto.
        -- split; [discriminate|]. intros (o' & [= <-] & H). exfalso.
           rewrite !orb_false_iff, andb_false_iff in Hb.
           destruct Hb as [[[H1 H2] H3] H4].
           rewrite <- not_true_iff_false, startsWith_spec in H1, H3, H4.
           rewrite <- !not_true_iff_false, startsWith_spec, strict_eq_spec in H2.
           unfold allowedOrigin, extension_token, TOKEN, allowedExtension in *. tauto.
      * split; [discriminate|]. intros (o' & [= <-] & H). exfalso.
        assert (o = EmptyString) as ->.
        { unfold Js.truthy in Ht. apply negb_false_iff, String.eqb_eq in Ht. exact Ht. }
        pose proof allowedExtension_nonempty as Hne.
        destruct H as [H|[H|[H|[H _]]]]; apply starts_with_empty in H;
          solve [discriminate | contradiction].
    + simpl. split; [discriminate|]. intros (o' & [=] & _).
  - apply checkOrigin_next_or_denied.
Qed.

End Guard_properties.

(** ** POST /simplify *)

Section Simplify_properties.

Variable env : Env.
Variable w : World.

(** *** The steps of the handler *)

Lemma handleFileInput_pure (f : File) (s : Store) :
  exists o, handleFileInput w f s = (o, s).
Proof.
  unfold handleFileInput, lift, ret, throw. repeat case_match; eauto.
Qed.

Lemma resolve_input_pure (req : SimplifyRequest) (s : Store) :
  exists o, resolve_input w req s = (o, s).
Proof.
  unfold resolve_input, ret, throw.
  repeat case_match; eauto using handleFileInput_pure.
Qed.

Lemma simplifyText_store (text : string) (g : option string) (key : string) (s : Store) :
  exists o, simplifyText w text g key s = (o, after_post key (userPrompt w text g) s).
Proof.
  unfold simplifyText, rethrow, bind, apiClient_post, lift, after_post.
  destruct (post w key (userPrompt w text g)); [|eauto].
  destruct (first_content_trimmed a); eauto.
Qed.

(** [simplifyText] resolves only with the trimmed content of the
    first choice of the reply. *)
Lemma simplifyText_Ok_inv (text : string) (g : option string) (key t : string)
      (s s' : Store) :
  simplifyText w text g key s = (Ok t, s') ->
  exists data c cs m str,
    post w key (userPrompt w text g) = Ok data /\ choices data = c :: cs
    /\ message c = Some m /\ content m = Some str /\ t = Js.trim str.
Proof.
  unfold simplifyText, rethrow, bind, apiClient_post, lift.
  destruct (post w key (userPrompt w text g)) as [data|e] eqn:Hp; [|discriminate].
  unfold first_content_trimmed.
  destruct (choices data) as [|c cs] eqn:Hc; [discriminate|].
  destruct (message c) as [m|] eqn:Hm; [|discriminate].
  destruct (content m) as [str|] eqn:Hs; [|discriminate].
  intros [= <- _]. exists data, c, cs, m, str. auto.
Qed.

Lemma simplifyText_Ok (text : string) (g : option string) (key : string) (s : Store)
      (data : Completion) (c : Choice) (cs : list Choice) (m : Message) (str : string) :
  post w key (userPrompt w text g) = Ok data -> choices data = c :: cs ->
  message c = Some m -> content m = Some str ->
  simplifyText w text g key s = (Ok (Js.trim str), after_post key (userPrompt w text g) s).
Proof.
  intros Hp Hc Hm Hs.
  unfold simplifyText, rethrow, bind, apiClient_post, lift, first_content_trimmed.
  rewrite Hp, Hc, Hm, Hs. reflexivity.
Qed.

(** [simplifyText] rejects only with an [Error] whose message starts
    with the fixed text. *)
Lemma simplifyText_Throw_inv (text : string) (g : option string) (key : string)
      (e : Thrown) (s s' : Store) :
  simplifyText w text g key s = (Throw e, s') ->
  exists m, e = JsError ("Text simplification failed: " +:+ m).
Proof.
  unfold simplifyText, rethrow, bind, apiClient_post, lift.
  destruct (post w key (userPrompt w text g)) as [data|e0].
  - destruct (first_content_trimmed data); [discriminate|]. intros [= <- _]. eauto.
  - intros [= <- _]. eauto.
Qed.

Lemma simplify_run_intro (req : SimplifyRequest) (s : Store) (r : Response) (s' : Store) :
  simplify env w req s = (r, s') -> simplify_run env w req s r s'.
Proof.
  unfold simplify, try_catch, simplify_try. unfold bind at 1.
  destruct (resolve_input_pure req s) as [[inputText|e] Hr]; rewrite Hr.
  2: { intros [= <- <-]. now apply run_unresolved. }
  destruct (Js.truthy (url req)) eqn:Hu; simpl.
  - destruct (Js.truthy_string (url req)) as [u|] eqn:Hts.
    2: { apply truthy_string_None in Hts. congruence. }
    unfold bind at 1, lift at 1.
    destruct (validateUrl w u) as [[]|e] eqn:Hv.
    2: { intros [= <- <-]. eapply run_url_rejected; eauto. }
    assert (Hok : url_ok w req) by (intros u' Hu'; congruence).
    assert (Hlen : length_ok env req inputText) by (left; exact Hu).
    unfold bind at 1.
    destruct (simplifyText w inputText (audience req) (apiKey env) s)
      as [[t|e] s1] eqn:Hs.
    + unfold bind, saveToRedis, redisClient_set, ret. fold (key_of w req inputText).
      destruct (redis_rejects w (key_of w req inputText) t) eqn:Hk; intros [= <- <-].
      * eapply run_cache_failed; eauto.
      * eapply run_success; eauto.
    + intros [= <- <-]. eapply run_simplification_failed; eauto.
  - destruct (Z.of_nat (String.length inputText) >? wordLimit env) eqn:Hgt; simpl.
    { unfold ret. intros [= <- <-]. eapply run_too_long; eauto. lia. }
    destruct (Js.truthy_string (url req)) as [u|] eqn:Hts.
    { apply truthy_string_Some in Hts as [Hsome Hne].
      assert (Js.truthy (url req) = true) by (apply truthy_spec; eauto). congruence. }
    assert (Hok : url_ok w req) by (intros u' Hu'; congruence).
    assert (Hlen : length_ok env req inputText) by (right; lia).
    unfold bind at 1, ret at 1. unfold bind at 1.
    destruct (simplifyText w inputText (audience req) (apiKey env) s)
      as [[t|e] s1] eqn:Hs.
    + unfold bind, saveToRedis, redisClient_set, ret. fold (key_of w req inputText).
      destruct (redis_rejects w (key_of w req inputText) t) eqn:Hk; intros [= <- <-].
      * eapply run_cache_failed; eauto.
      * eapply run_success; eauto.
    + intros [= <- <-]. eapply run_simplification_failed; eauto.
Qed.

Lemma simplify_runs (req : SimplifyRequest) (s : Store) :
  simplify_run env w req s (fst (simplify env w req s)) (snd (simplify env w req s)).
Proof. apply simplify_run_intro, surjective_pairing. Qed.

(** Case analysis on the run of the handler on [req] from [s]. *)
Ltac run_cases req s :=
  let E := fresh "E" in
  let r := fresh "r" in
  let s' := fresh "s'" in
  destruct (simplify _ _ req s) as [r s'] eqn:E;
  apply simplify_run_intro in E; simpl;
  inversion E as [e H|t H Hno Hlong|t u e H Hts Hv|t e s1 H Hlen Hok Hs
                  |t x s1 e H Hlen Hok Hs Hk|t x s1 H Hlen Hok Hs Hk];
  subst; clear E.

(** Two resolutions of the same request agree. *)
Ltac same_input :=
  try match goal with
      | H1 : resolve_input ?w ?r ?s = _, H2 : resolve_input ?w ?r ?s = _ |- _ =>
          rewrite H1 in H2; simplify_eq
      end.

Lemma simplifyText_redis (text : string) (g : option string) (key : string)
      (s s1 : Store) (o : Outcome string) :
  simplifyText w text g key s = (o, s1) -> redis s1 = redis s.
Proof.
  destruct (simplifyText_store text g key s) as [o' H]. rewrite H.
  intros [= _ <-]. reflexivity.
Qed.

(** *** Input resolution *)

(** X3.  The input is the file's text whenever there is a file, else the
    url when it is not empty, else the text when it is not empty. *)
Lemma resolve_input_priority (req : SimplifyRequest) (s : Store) :
  (forall f, file req = Some f -> resolve_input w req s = handleFileInput w f s)
  /\ (forall u, file req = None -> url req = Some u -> u <> EmptyString ->
      resolve_input w req s = (Ok u, s))
  /\ (forall t, file req = None -> Js.truthy (url req) = false ->
      text req = Some t -> t <> EmptyString ->
      resolve_input w req s = (Ok t, s)).
Proof.
  unfold resolve_input. repeat split.
  - intros f ->. reflexivity.
  - intros u -> Hu Hne.
    assert (Js.truthy_string (url req) = Some u) as -> by now apply truthy_string_Some.
    reflexivity.
  - intros t -> Hu Ht Hne.
    apply truthy_string_None in Hu as ->.
    assert (Js.truthy_string (text req) = Some t) as -> by now apply truthy_string_Some.
    reflexivity.
Qed.

(** C2.  A request with no file, no (non-empty) url and no (non-empty)
    text is answered with the message of the exception the resolver
    throws, [No valid input provided], under status 500 -- the status of
    the handler's catch block, not 400 -- and leaves the store as it was. *)
Theorem simplify_without_input (req : SimplifyRequest) (s : Store) :
  file req = None -> Js.truthy (url req) = false -> Js.truthy (text req) = false ->
  simplify env w req s
  = ({| status := 500; body := ErrorBody "No valid input provided" |}, s).
Proof.
  intros Hf Hu Ht.
  unfold simplify, try_catch, simplify_try, bind, resolve_input.
  apply truthy_string_None in Hu, Ht. rewrite Hf, Hu, Ht. reflexivity.
Qed.

(** *** The length check *)

(** X4.  Without a url, the check rejects exactly the inputs longer than
    the limit, with status 400 and a message that names the limit. *)
Lemma length_check_without_url (req : SimplifyRequest) (s : Store) (inputText : string) :
  Js.truthy (url req) = false ->
  resolve_input w req s = (Ok inputText, s) ->
  (wordLimit env < Z.of_nat (String.length inputText) <->
   fst (simplify env w req s)
   = {| status := 400;
        body := ErrorBody ("Text exceeds the word limit of " +:+ Js.of_Z (wordLimit env)
                           +:+ " characters.") |}).
Proof.
  intros Hu Hr. run_cases req s; same_input.
  all: try (apply truthy_string_Some in Hts as [Hts Hne];
            assert (Js.truthy (url req) = true) by (apply truthy_spec; eauto)).
  all: try match goal with H : length_ok _ _ _ |- _ => destruct H end.
  all: split; intros; try first [reflexivity | assumption | discriminate | congruence | lia].
Qed.

(** X5.  With a url, the check is skipped whatever the input is: the
    request is never answered 400. *)
Lemma length_check_skipped_with_url (req : SimplifyRequest) (s : Store) :
  Js.truthy (url req) = true -> status (fst (simplify env w req s)) <> 400.
Proof.
  intros Hu. run_cases req s; simpl; try discriminate. congruence.
Qed.

(** *** File input *)

(** C4.  A file is handed to the PDF extractor when its MIME type is
    [application/pdf], to the Word extractor when it is the Word MIME
    type, and decoded as UTF-8 when it is [text/plain]; with any other
    MIME type the request is answered with status 500 and the message
    [Unsupported file type]. *)
Theorem handleFileInput_dispatch (f : File) (s : Store) :
  (mimetype f = "application/pdf" ->
   handleFileInput w f s = (extractTextFromPdf w (buffer f), s))
  /\ (mimetype f = "application/vnd.openxmlformats-officedocument.wordprocessingml.document" ->
      handleFileInput w f s = (extractTextFromWord w (buffer f), s))
  /\ (mimetype f = "text/plain" ->
      handleFileInput w f s = (Ok (toString_utf8 w (buffer f)), s))
  /\ (mimetype f <> "application/pdf" ->
      mimetype f <> "application/vnd.openxmlformats-officedocument.wordprocessingml.document" ->
      mimetype f <> "text/plain" ->
      handleFileInput w f s = (Throw (JsError "Unsupported file type"), s)
      /\ forall req, file req = Some f ->
           simplify env w req s
           = ({| status := 500; body := ErrorBody "Unsupported file type" |}, s)).
Proof.
  unfold handleFileInput. split; [|split; [|split]].
  - intros ->. reflexivity.
  - intros ->. reflexivity.
  - intros ->. reflexivity.
  - intros Hpdf Hword Htxt. apply String.eqb_neq in Hpdf, Hword, Htxt.
    rewrite Hpdf, Hword, Htxt. split; [reflexivity|].
    intros req Hf.
    unfold simplify, try_catch, simplify_try, bind, resolve_input, handleFileInput.
    rewrite Hf, Hpdf, Hword, Htxt. reflexivity.
Qed.

(** *** The completion and the cache *)

(** C5.  When the completion API answers the request's prompt with a
    reply whose first choice carries the content [str], every
    [simplifiedText] the handler returns is [str] with the white space
    at both ends removed, and nothing else; and the handler does return
    it when the input passes the length check, the url (if any) is
    accepted and the cache takes the entry. *)
Theorem simplify_returns_trimmed_content
        (req : SimplifyRequest) (s : Store) (inputText : string)
        (data : Completion) (c : Choice) (cs : list Choice) (m : Message) (str : string) :
  resolve_input w req s = (Ok inputText, s) ->
  post w (apiKey env) (userPrompt w inputText (audience req)) = Ok data ->
  choices data = c :: cs -> message c = Some m -> content m = Some str ->
  (forall t, body (fst (simplify env w req s)) = SimplifiedBody t -> t = Js.trim str)
  /\ (length_ok env req inputText -> url_ok w req ->
      redis_rejects w (key_of w req inputText) (Js.trim str) = None ->
      fst (simplify env w req s) = {| status := 200; body := SimplifiedBody (Js.trim str) |}).
Proof.
  intros Hr Hp Hc Hm Hstr.
  pose proof (simplifyText_Ok inputText (audience req) (apiKey env) s data c cs m str
                Hp Hc Hm Hstr) as Hsimp.
  run_cases req s; same_input; try rewrite Hsimp in Hs; simplify_eq.
  all: split; [intros t0 Hb; simpl in Hb; simplify_eq; reflexivity
              | intros Hlen' Hok' Hk'].
  - destruct Hlen' as [Hurl|Hshort]; [congruence | lia].
  - specialize (Hok' _ Hts). congruence.
  - congruence.
  - reflexivity.
Qed.

(** C7.  When the run of the handler gets a simplified text [t] for its
    input, it sets one entry in the cache, with the key
    [prompt|:|input|:|audience|:|timestamp] and the value [t], and
    answers with [t] (or, if the store refuses the write, answers 500
    with the cache as it was); when it gets none, it answers with an
    error under status 400 or 500 and the cache is as it was. *)
Theorem cache_written_iff_success (req : SimplifyRequest) (s : Store) :
  (exists inputText t,
      simplified env w req s inputText t
      /\ match redis_rejects w ("prompt|:|" +:+ inputText +:+ "|:|"
                                +:+ Js.template (audience req) +:+ "|:|"
                                +:+ Js.of_Z (Date_now w)) t with
         | None =>
             fst (simplify env w req s) = {| status := 200; body := SimplifiedBody t |}
             /\ redis (snd (simplify env w req s))
                = <[ "prompt|:|" +:+ inputText +:+ "|:|" +:+ Js.template (audience req)
                     +:+ "|:|" +:+ Js.of_Z (Date_now w) := t ]> (redis s)
         | Some e =>
             status (fst (simplify env w req s)) = 500
             /\ redis (snd (simplify env w req s)) = redis s
         end)
  \/ ((forall inputText t, ~ simplified env w req s inputText t)
      /\ (exists m, body (fst (simplify env w req s)) = ErrorBody m)
      /\ (status (fst (simplify env w req s)) = 400
          \/ status (fst (simplify env w req s)) = 500)
      /\ redis (snd (simplify env w req s)) = redis s).
Proof.
  run_cases req s.
  1-4: right; split;
       [ intros i x (s2 & Hr & Hlen' & Hok' & Hs'); same_input
       | unfold simplify_catch, too_long, status_json; simpl;
         repeat split; eauto using simplifyText_redis ].
  - destruct Hlen' as [Hurl|Hshort]; [congruence | lia].
  - specialize (Hok' _ Hts). congruence.
  - congruence.
  - left. exists t, x. split; [eexists; eauto|].
    fold (cache_key t (audience req) (Js.of_Z (Date_now w))). fold (key_of w req t).
    rewrite Hk. split; [reflexivity | eauto using simplifyText_redis].
  - left. exists t, x. split; [eexists; eauto|].
    fold (cache_key t (audience req) (Js.of_Z (Date_now w))). fold (key_of w req t).
    rewrite Hk. simpl. split; [reflexivity|].
    rewrite (simplifyText_redis _ _ _ _ _ _ Hs). reflexivity.
Qed.

(** C9.  Whatever is thrown inside the handler's [try] block -- also by
    the input resolution and by the URL validation -- is answered
    under status 500 with the thrown message as the error, and the cache
    stays as it was. *)
Theorem thrown_failure_is_500 (req : SimplifyRequest) (s s1 : Store) (e : Thrown) :
  simplify_try env w req s = (Throw e, s1) ->
  fst (simplify env w req s)
  = {| status := 500;
       body := ErrorBody (Js.or_default (Some (message_or e "An unknown error occurred."))
                            "An error occurred during text simplification.") |}
  /\ redis (snd (simplify env w req s)) = redis s.
Proof.
  intros Ht.
  assert (Hs : simplify env w req s = (simplify_catch e, s1)).
  { unfold simplify, try_catch. rewrite Ht. reflexivity. }
  rewrite Hs. simpl. split; [reflexivity|].
  apply simplify_run_intro in Hs.
  inversion Hs; subst; eauto using simplifyText_redis.
Qed.

End Simplify_properties.

(** ** GET /word-info *)

Lemma second_piece_spec (line p : string) :
  nth_error (Js.split ":" line) 1 = Some p <-> after_colon line p.
Proof.
  split.
  - intros Hn. pose proof (join_split ":" line) as Hj.
    pose proof (split_pieces ":" line) as Hp.
    destruct (Js.split ":" line) as [|a [|p' ps]]; try discriminate.
    injection Hn as ->.
    inversion Hp as [|? ? Ha Hp']; subst. inversion Hp' as [|? ? Hpp Hps]; subst.
    exists a, (Js.join ":" ps). repeat split; try assumption.
    destruct ps as [|q qs]; [left | right]; reflexivity.
  - intros (a & rest & Ha & Hp & [->| ->]).
    + change (a +:+ ":" +:+ p) with (a +:+ String ":" p).
      rewrite split_app_sep, split_no_sep by assumption. reflexivity.
    + change (a +:+ ":" +:+ p +:+ ":" +:+ rest)
        with (a +:+ String ":" (p +:+ String ":" rest)).
      rewrite !split_app_sep by assumption. reflexivity.
Qed.

Lemma second_field_Some (line v : string) :
  second_field line = Some v <-> exists p, after_colon line p /\ v = Js.trim p.
Proof.
  unfold second_field.
  destruct (nth_error (Js.split ":" line) 1) as [p|] eqn:Hn.
  - apply second_piece_spec in Hn. split.
    + intros [= <-]. eauto.
    + intros (p' & Hp' & ->). apply second_piece_spec in Hn, Hp'. congruence.
  - split; [discriminate|]. intros (p' & Hp' & _).
    apply second_piece_spec in Hp'. congruence.
Qed.

(** The [n]-th element of the mapped lines, seen through [||]. *)
Lemma match_truthy_spec (reply : string) (n : nat) (v : string) :
  Js.truthy_string
    (mjoin (nth_error (map second_field (Js.split (ascii_of_nat 10) reply)) n)) = Some v
  <-> parsed_field reply n v.
Proof.
  rewrite truthy_string_Some, nth_error_map. unfold parsed_field.
  destruct (nth_error (Js.split (ascii_of_nat 10) reply) n) as [line|]; simpl.
  - split.
    + intros [Hf Hne]. apply second_field_Some in Hf as (p & Hp & ->). eauto 6.
    + intros (line' & p & [= <-] & Hp & -> & Hne). split; [|exact Hne].
      apply second_field_Some. eauto.
  - split; [intros [[=] _] | intros (line' & p & [=] & _)].
Qed.

Section Word_info_properties.

Variable env : Env.
Variable w : World.

(** C10.  Without a word -- the query parameter is absent or empty --
    the handler answers 400 with the error [No word provided], and the
    store, with the list of prompts sent to the completion API, is as it
    was. *)
Theorem word_info_without_word (query_word : option string) (s : Store) :
  query_word = None \/ query_word = Some EmptyString ->
  word_info env w query_word s
  = ({| status := 400; body := ErrorBody "No word provided" |}, s)
  /\ posted (snd (word_info env w query_word s)) = posted s.
Proof.
  intros [-> | ->]; split; reflexivity.
Qed.

(** X12.  A failing call of the completion API is answered with status
    500 and a fixed error, whatever the failure was. *)
Lemma word_info_upstream_failure (word : string) (s : Store) (e : Thrown) :
  word <> EmptyString -> post w (apiKey env) (wordInfoPrompt word) = Throw e ->
  fst (word_info env w (Some word) s)
  = {| status := 500; body := ErrorBody "Error fetching word information" |}.
Proof.
  intros Hw Hp. unfold word_info.
  assert (Js.truthy_string (Some word) = Some word) as -> by now apply truthy_string_Some.
  unfold try_catch, word_info_try, bind, apiClient_post. rewrite Hp. reflexivity.
Qed.

(** C8.  The reply is split into lines, and the first two lines are read
    as [label: value]: the definition is the value of line 0 and the
    synonyms are the value of line 1 split at the commas, each piece
    trimmed; a line that is missing, has no colon, or has nothing but
    white space after it gives the placeholder instead.  The answer
    carries the queried word. *)
Theorem word_info_parses_reply (word : string) (s : Store) (data : Completion) :
  word <> EmptyString ->
  post w (apiKey env) (wordInfoPrompt word) = Ok data ->
  exists definition synonyms,
    fst (word_info env w (Some word) s)
    = {| status := 200; body := WordInfoBody word definition synonyms |}
    /\ ((exists v, parsed_field (responseContent data) 0 v /\ definition = v)
        \/ ((forall v, ~ parsed_field (responseContent data) 0 v)
            /\ definition = "Definition not found"))
    /\ ((exists v, parsed_field (responseContent data) 1 v
                   /\ synonyms = map Js.trim (Js.split "," v))
        \/ ((forall v, ~ parsed_field (responseContent data) 1 v)
            /\ synonyms = ["No synonyms found"])).
Proof.
  intros Hw Hp. unfold word_info.
  assert (Js.truthy_string (Some word) = Some word) as -> by now apply truthy_string_Some.
  unfold try_catch, word_info_try, bind, apiClient_post, ret. rewrite Hp.
  cbv beta iota zeta.
  set (lines := map second_field (Js.split (ascii_of_nat 10) (responseContent data))).
  do 2 eexists. split; [reflexivity|]. split.
  - destruct (Js.truthy_string (mjoin (nth_error lines 0))) as [v|] eqn:Hd.
    + left. exists v. split; [now apply match_truthy_spec|].
      apply truthy_string_Some in Hd as [Hd Hne].
      rewrite Hd. unfold Js.or_default.
      destruct (String.eqb_spec v EmptyString); congruence.
    + right. split.
      * intros v Hv. apply match_truthy_spec in Hv. fold lines in Hv. congruence.
      * apply truthy_string_None in Hd.
        unfold Js.truthy in Hd. unfold Js.or_default.
        destruct (mjoin (nth_error lines 0)) as [v|]; [|reflexivity].
        apply negb_false_iff in Hd. now rewrite Hd.
  - destruct (Js.truthy_string (mjoin (nth_error lines 1))) as [v|] eqn:Hd.
    + left. exists v. split; [now apply match_truthy_spec | reflexivity].
    + right. split; [|reflexivity].
      intros v Hv. apply match_truthy_spec in Hv. fold lines in Hv. congruence.
Qed.

End Word_info_properties.

(** ** POST /feedback *)

(** C6.  A rating from 1 to 10 is answered with status 200 and the
    confirmation; any other rating -- NaN, a missing rating, an infinity,
    a number below 1 or above 10 -- with status 400 and the error. *)
Theorem feedback_rating (b : Feedback) :
  (rating_in_range (rating b) ->
   feedback b = {| status := 200; body := MessageBody "Rating submitted successfully" |})
  /\ (~ rating_in_range (rating b) ->
      feedback b
      = {| status := 400; body := ErrorBody "Rating must be a number between 1 and 10" |}).
Proof.
  unfold feedback, rating_in_range.
  destruct (rating b) as [[| neg |q]|]; simpl.
  - split; [intros (q & [=] & _) | reflexivity].
  - split; [intros (q & [=] & _) | destruct neg; reflexivity].
  - destruct (Qle_bool (inject_Z 1) q) eqn:H1;
      destruct (Qle_bool q (inject_Z 10)) eqn:H10; simpl.
    + split; [reflexivity|]. intros Hn. exfalso. apply Hn. exists q.
      apply Qle_bool_iff in H1, H10. auto.
    + split; [|reflexivity]. intros (q' & [= <-] & _ & Hle).
      apply Qle_bool_iff in Hle. unfold inject_Z in *. congruence.
    + split; [|reflexivity]. intros (q' & [= <-] & Hle & _).
      apply Qle_bool_iff in Hle. unfold inject_Z in *. congruence.
    + split; [|reflexivity]. intros (q' & [= <-] & Hle & _).
      apply Qle_bool_iff in Hle. unfold inject_Z in *. congruence.
  - split; [intros (q & [=] & _) | reflexivity].
Qed.

(** * The handlers on the demo deployment *)

(** ** The access guard *)

Example extension_with_plain_token :
  checkOrigin demo_env (extension_headers (Some "abc")) = respond access_denied.
Proof. vm_compute. reflexivity. Qed.

Example extension_without_token :
  checkOrigin demo_env (extension_headers None) = respond access_denied.
Proof. vm_compute. reflexivity. Qed.

Example referer_of_the_site :
  checkOrigin demo_env
    {| h_origin := None; h_referer := Some "https://simplifymytext.org/app"; h_token := None |}
  = next.
Proof. vm_compute. reflexivity. Qed.

Example no_origin_no_referer :
  checkOrigin demo_env {| h_origin := None; h_referer := None; h_token := None |}
  = respond access_denied.
Proof. vm_compute. reflexivity. Qed.

Lemma checkOrigin_allows_iff_witness :
  checkOrigin demo_env (extension_headers (Some (Sha256.hex "abc"))) = next.
Proof.
  apply (proj2 (proj1 (checkOrigin_allows_iff demo_env _))).
  exists "chrome-extension://klartext/popup.html". split; [reflexivity|].
  right; right; right. split; [exists "/popup.html"; reflexivity | reflexivity].
Defined.

(** ** POST /simplify *)

Lemma simplify_without_input_witness :
  file no_input = None /\ Js.truthy (url no_input) = false
  /\ Js.truthy (text no_input) = false
  /\ simplify demo_env demo_world no_input empty_store
     = ({| status := 500; body := ErrorBody "No valid input provided" |}, empty_store).
Proof.
  split; [reflexivity|]. split; [reflexivity|]. split; [reflexivity|].
  apply simplify_without_input; reflexivity.
Defined.

(** C3.  A file of 39 characters sent together with a url, under a limit
    of 10: the input is the file's text, the length check does not look
    at it, and the request is answered with the simplified text. *)
Theorem length_check_bypassed_by_url :
  resolve_input demo_world file_and_url empty_store
  = (Ok "This text has more than ten characters.", empty_store)
  /\ wordLimit demo_env
     < Z.of_nat (String.length "This text has more than ten characters.")
  /\ fst (simplify demo_env demo_world file_and_url empty_store)
     = {| status := 200; body := SimplifiedBody "Plain words." |}.
Proof.
  split; [reflexivity|]. split; [vm_compute; reflexivity|].
  vm_compute. reflexivity.
Qed.

(** The same file without the url is rejected. *)
Example long_file_alone_is_rejected :
  fst (simplify demo_env demo_world
         {| audience := Some "General Public"; text := None; url := None;
            file := Some long_file |} empty_store)
  = {| status := 400; body := ErrorBody "Text exceeds the word limit of 10 characters." |}.
Proof. vm_compute. reflexivity. Qed.

Lemma handleFileInput_dispatch_witness :
  simplify demo_env demo_world picture_upload empty_store
  = ({| status := 500; body := ErrorBody "Unsupported file type" |}, empty_store).
Proof.
  apply (handleFileInput_dispatch demo_env demo_world picture empty_store);
    [discriminate .. | reflexivity].
Defined.

Lemma simplify_returns_trimmed_content_witness :
  resolve_input demo_world short_text empty_store = (Ok "Short one", empty_store)
  /\ post demo_world (apiKey demo_env)
       (userPrompt demo_world "Short one" (audience short_text)) = Ok demo_reply
  /\ (forall t,
        body (fst (simplify demo_env demo_world short_text empty_store)) = SimplifiedBody t ->
        t = "Plain words.")
  /\ fst (simplify demo_env demo_world short_text empty_store)
     = {| status := 200; body := SimplifiedBody "Plain words." |}.
Proof.
  pose proof (simplify_returns_trimmed_content demo_env demo_world short_text empty_store
                "Short one" demo_reply _ _ _ "  Plain words. "
                eq_refl eq_refl eq_refl eq_refl eq_refl) as [Honly Hdoes].
  split; [reflexivity|]. split; [reflexivity|]. split; [exact Honly|].
  apply Hdoes.
  - right. vm_compute. discriminate.
  - intros u Hu. discriminate Hu.
  - reflexivity.
Defined.

Lemma cache_written_iff_success_witness :
  redis (snd (simplify demo_env demo_world short_text empty_store))
  = <[ "prompt|:|Short one|:|General Public|:|1700000000000" := "Plain words." ]> ∅.
Proof.
  destruct (cache_written_iff_success demo_env demo_world short_text empty_store)
    as [(inputText & t & (s1 & Hin & _ & _ & Hsimp) & Hset)|(_ & _ & Hst & _)].
  - injection Hin as <-. injection Hsimp as <- _. exact (proj2 Hset).
  - vm_compute in Hst. destruct Hst; discriminate.
Defined.

Lemma thrown_failure_is_500_witness :
  simplify_try demo_env demo_world bad_url empty_store
  = (Throw (JsError "Invalid URL"), empty_store)
  /\ fst (simplify demo_env demo_world bad_url empty_store)
     = {| status := 500; body := ErrorBody "Invalid URL" |}
  /\ redis (snd (simplify demo_env demo_world bad_url empty_store)) = ∅.
Proof.
  split; [reflexivity|].
  apply (thrown_failure_is_500 demo_env demo_world bad_url empty_store empty_store
           (JsError "Invalid URL")).
  reflexivity.
Defined.

(** ** GET /word-info *)

Lemma word_info_without_word_witness :
  word_info demo_env demo_world (Some EmptyString) empty_store
  = ({| status := 400; body := ErrorBody "No word provided" |}, empty_store)
  /\ posted (snd (word_info demo_env demo_world (Some EmptyString) empty_store)) = [].
Proof.
  apply (word_info_without_word demo_env demo_world (Some EmptyString) empty_store).
  right. reflexivity.
Defined.

Lemma word_info_parses_reply_witness :
  "cat" <> EmptyString
  /\ post demo_world (apiKey demo_env) (wordInfoPrompt "cat") = Ok demo_word_reply
  /\ exists definition synonyms,
      fst (word_info demo_env demo_world (Some "cat") empty_store)
      = {| status := 200; body := WordInfoBody "cat" definition synonyms |}
      /\ ((exists v, parsed_field (responseContent demo_word_reply) 0 v /\ definition = v)
          \/ ((forall v, ~ parsed_field (responseContent demo_word_reply) 0 v)
              /\ definition = "Definition not found"))
      /\ ((exists v, parsed_field (responseContent demo_word_reply) 1 v
                     /\ synonyms = map Js.trim (Js.split "," v))
          \/ ((forall v, ~ parsed_field (responseContent demo_word_reply) 1 v)
              /\ synonyms = ["No synonyms found"])).
Proof.
  split; [discriminate|]. split; [reflexivity|].
  apply word_info_parses_reply; [discriminate | reflexivity].
Defined.

Example word_info_of_cat :
  fst (word_info demo_env demo_world (Some "cat") empty_store)
  = {| status := 200;
       body := WordInfoBody "cat" "A small domesticated animal."
                 ["feline"; "kitty"; "puss"] |}.
Proof. vm_compute. reflexivity. Qed.

(** A value that has a colon of its own is cut there. *)
Example word_info_second_colon :
  fst (word_info demo_env
         (demo_world_replying (reply_with "Definition: the time, as in 10:30"))
         (Some "time") empty_store)
  = {| status := 200;
       body := WordInfoBody "time" "the time, as in 10" ["No synonyms found"] |}.
Proof. vm_compute. reflexivity. Qed.

(** A blank second line hides the synonyms of the third. *)
Example word_info_blank_line :
  fst (word_info demo_env
         (demo_world_replying
            (reply_with ("Definition: a pet" +:+ Js.LF +:+ Js.LF +:+ "Synonyms: kitty")))
         (Some "cat") empty_store)
  = {| status := 200; body := WordInfoBody "cat" "a pet" ["No synonyms found"] |}.
Proof. vm_compute. reflexivity. Qed.

(** A reply without choices gives both placeholders. *)
Example word_info_no_choice :
  fst (word_info demo_env (demo_world_replying {| choices := [] |}) (Some "cat") empty_store)
  = {| status := 200;
       body := WordInfoBody "cat" "Definition not found" ["No synonyms found"] |}.
Proof. vm_compute. reflexivity. Qed.

(** ** POST /feedback *)

Lemma feedback_rating_witness :
  feedback {| rating := Some (Finite (11 # 2)%Q); feedback_text := Some "fine" |}
  = {| status := 200; body := MessageBody "Rating submitted successfully" |}.
Proof.
  apply feedback_rating. exists (11 # 2)%Q. repeat split; simpl; discriminate.
Defined.

Example feedback_bounds :
  status (feedback {| rating := Some (Finite 1%Q); feedback_text := None |}) = 200
  /\ status (feedback {| rating := Some (Finite 10%Q); feedback_text := None |}) = 200
  /\ status (feedback {| rating := Some (Finite (1 # 2)%Q); feedback_text := None |}) = 400
  /\ status (feedback {| rating := Some (Finite (21 # 2)%Q); feedback_text := None |}) = 400
  /\ status (feedback {| rating := Some NaN; feedback_text := None |}) = 400
  /\ status (feedback {| rating := Some (Infinity false); feedback_text := None |}) = 400
  /\ status (feedback {| rating := None; feedback_text := None |}) = 400.
Proof. vm_compute. repeat split. Qed.

(** * Further properties of the module *)

(** ** The CORS callback and the guard *)

Section Entry_properties.

Variable env : Env.

(** X1.  A request the guard passes on has an [Origin] header the CORS
    callback accepts: the guard is the stricter of the two. *)
Theorem guard_pass_implies_cors_accepts (headers : Headers) :
  checkOrigin env headers = next -> cors_origin env (h_origin headers) = Ok true.
Proof.
  unfold checkOrigin, cors_origin, Js.or_.
  destruct (Js.truthy (h_origin headers)) eqn:Ho; simpl; [|reflexivity].
  rewrite Ho. simpl.
  destruct (h_origin headers) as [o|]; [|discriminate].
  destruct (Js.startsWith o allowedOrigin); simpl; [reflexivity|].
  destruct (Js.startsWith o (allowedExtension env)); simpl; [reflexivity|].
  destruct (Js.startsWith o "http://localhost"); simpl; [reflexivity|].
  destruct (Js.startsWith o "https://localhost"); simpl; [reflexivity|discriminate].
Qed.

End Entry_properties.

Lemma guard_pass_implies_cors_accepts_witness :
  cors_origin demo_env (h_origin (extension_headers (Some (Sha256.hex "abc")))) = Ok true.
Proof.
  apply guard_pass_implies_cors_accepts. vm_compute. reflexivity.
Defined.

(** ** The hashed token *)

Lemma length_append (a b : string) :
  String.length (a +:+ b) = (String.length a + String.length b)%nat.
Proof. induction a as [|c a IH]; [reflexivity|]. rewrite append_cons. simpl. now rewrite IH. Qed.

Lemma hex_of_length (n : nat) (x : Z) : String.length (Sha256.hex_of n x) = n.
Proof. induction n as [|n IH]; simpl; [reflexivity | now rewrite IH]. Qed.

Lemma round_length (h : list Z) (kw : Z * Z) :
  length h = 8%nat -> length (Sha256.round h kw) = 8%nat.
Proof.
  intros Hh. do 9 (destruct h as [|? h]; try discriminate Hh). reflexivity.
Qed.

Lemma rounds_length (l : list (Z * Z)) (h : list Z) :
  length h = 8%nat -> length (fold_left Sha256.round l h) = 8%nat.
Proof.
  revert h. induction l as [|kw l IH]; intros h Hh; simpl; [exact Hh|].
  apply IH, round_length, Hh.
Qed.

Lemma compress_length (h block : list Z) :
  length h = 8%nat -> length (Sha256.compress h block) = 8%nat.
Proof.
  intros Hh. unfold Sha256.compress.
  rewrite length_map, length_combine, rounds_length by exact Hh. now rewrite Hh.
Qed.

Lemma blocks_length (n : nat) (h bytes : list Z) :
  length h = 8%nat -> length (Sha256.blocks n h bytes) = 8%nat.
Proof.
  revert h bytes. induction n as [|n IH]; intros h bytes Hh; simpl; [exact Hh|].
  apply IH, compress_length, Hh.
Qed.

Lemma hex_words_length (ws : list Z) :
  String.length (fold_right (fun w acc => Sha256.hex_of 8 w +:+ acc) EmptyString ws)
  = (8 * length ws)%nat.
Proof.
  induction ws as [|x ws IH]; [reflexivity|].
  cbn [fold_right length]. rewrite length_append, hex_of_length, IH. lia.
Qed.

(** A hexadecimal SHA-256 digest has 64 characters. *)
Lemma sha256_hex_length (s : string) : String.length (Sha256.hex s) = 64%nat.
Proof.
  unfold Sha256.hex, Sha256.digest.
  rewrite hex_words_length, blocks_length; reflexivity.
Qed.

Section Token_properties.

Variable env : Env.

(** X2.  The token the guard compares with is a hexadecimal digest of 64
    characters, so a request that only the extension identifier could
    let in, and whose token header has another length, is denied --
    whatever the configured token is. *)
Theorem token_of_other_length_denied (headers : Headers) (origin token : string) :
  Js.or_ (h_origin headers) (h_referer headers) = Some origin ->
  ~ starts_with origin "https://simplifymytext.org" ->
  ~ starts_with origin "http://localhost" ->
  ~ starts_with origin "https://localhost" ->
  h_token headers = Some token ->
  String.length token <> 64%nat ->
  String.length (extension_token env) = 64%nat
  /\ checkOrigin env headers = respond access_denied.
Proof.
  intros Ho Hsite Hhttp Hhttps Ht Hlen.
  split; [apply sha256_hex_length|].
  unfold checkOrigin. rewrite Ho, Ht.
  rewrite <- startsWith_spec in Hsite, Hhttp, Hhttps.
  apply not_true_is_false in Hsite, Hhttp, Hhttps.
  unfold allowedOrigin. rewrite Hsite, Hhttp, Hhttps.
  assert (Hne : strict_eq (Some token) (extension_token env) = false).
  { apply not_true_is_false. rewrite strict_eq_spec. intros [= ->].
    apply Hlen, sha256_hex_length. }
  rewrite Hne, andb_false_r, andb_false_r. reflexivity.
Qed.

End Token_properties.

Lemma token_of_other_length_denied_witness :
  String.length (extension_token demo_env) = 64%nat
  /\ checkOrigin demo_env (extension_headers (Some "abc")) = respond access_denied.
Proof.
  apply (token_of_other_length_denied demo_env (extension_headers (Some "abc"))
           "chrome-extension://klartext/popup.html" "abc").
  - reflexivity.
  - rewrite <- startsWith_spec. discriminate.
  - rewrite <- startsWith_spec. discriminate.
  - rewrite <- startsWith_spec. discriminate.
  - reflexivity.
  - discriminate.
Defined.

(** ** POST /simplify: input, checks and what is sent out *)

Lemma resolve_input_priority_witness :
  resolve_input demo_world file_and_url empty_store
  = handleFileInput demo_world long_file empty_store
  /\ resolve_input demo_world text_and_url empty_store
     = (Ok "https://example.org", empty_store)
  /\ resolve_input demo_world short_text empty_store = (Ok "Short one", empty_store).
Proof.
  destruct (resolve_input_priority demo_world file_and_url empty_store) as (Hfile & _ & _).
  destruct (resolve_input_priority demo_world text_and_url empty_store) as (_ & Hurl & _).
  destruct (resolve_input_priority demo_world short_text empty_store) as (_ & _ & Htext).
  split; [apply Hfile; reflexivity|].
  split; [apply Hurl; [reflexivity | reflexivity | discriminate]|].
  apply Htext; [reflexivity | reflexivity | reflexivity | discriminate].
Defined.

Lemma length_check_without_url_witness :
  fst (simplify demo_env demo_world long_text empty_store)
  = {| status := 400; body := ErrorBody "Text exceeds the word limit of 10 characters." |}.
Proof.
  apply (proj1 (length_check_without_url demo_env demo_world long_text empty_store
                  "A text that is too long" eq_refl eq_refl)).
  vm_compute. reflexivity.
Defined.

Lemma length_check_skipped_with_url_witness :
  status (fst (simplify demo_env demo_world text_and_url empty_store)) <> 400.
Proof.
  apply length_check_skipped_with_url. reflexivity.
Defined.

Section Simplify_effects.

Variable env : Env.
Variable w : World.

Ltac handler_cases req s :=
  let E := fresh "E" in
  let r := fresh "r" in
  let s' := fresh "s'" in
  destruct (simplify _ _ req s) as [r s'] eqn:E;
  apply simplify_run_intro in E; simpl;
  inversion E as [e H|t H Hno Hlong|t u e H Hts Hv|t e s1 H Hlen Hok Hs
                  |t x s1 e H Hlen Hok Hs Hk|t x s1 H Hlen Hok Hs Hk];
  subst; clear E.

Lemma simplifyText_posted (text : string) (g : option string) (key : string)
      (s s1 : Store) (o : Outcome string) :
  simplifyText w text g key s = (o, s1) ->
  posted s1 = (posted s ++ [(key, userPrompt w text g)])%list.
Proof.
  destruct (simplifyText_store w text g key s) as [o' H]. rewrite H.
  intros [= _ <-]. reflexivity.
Qed.

(** X6.  The handler sends at most one prompt to the completion API, and
    only for an input that resolved and passed the checks: then the one
    prompt is the prompt of that input; when the input is missing, too
    long, of an unsupported type, or its url is rejected, nothing is
    sent. *)
Theorem simplify_posts_once_after_checks (req : SimplifyRequest) (s : Store) :
  (exists inputText,
      resolve_input w req s = (Ok inputText, s)
      /\ length_ok env req inputText /\ url_ok w req
      /\ posted (snd (simplify env w req s))
         = (posted s ++ [(apiKey env, userPrompt w inputText (audience req))])%list)
  \/ ((forall inputText,
         resolve_input w req s = (Ok inputText, s) ->
         ~ (length_ok env req inputText /\ url_ok w req))
      /\ posted (snd (simplify env w req s)) = posted s).
Proof.
  handler_cases req s.
  - right. split; [|reflexivity]. intros i Hi. congruence.
  - right. split; [|reflexivity]. intros i Hi [[Hurl|Hshort] _].
    + congruence.
    + rewrite H in Hi. injection Hi as <-. lia.
  - right. split; [|reflexivity]. intros i Hi [_ Hok].
    specialize (Hok _ Hts). congruence.
  - left. exists t. repeat split; try assumption. eapply simplifyText_posted; eauto.
  - left. exists t. repeat split; try assumption. eapply simplifyText_posted; eauto.
  - left. exists t. repeat split; try assumption. simpl.
    eapply simplifyText_posted; eauto.
Qed.

End Simplify_effects.

(** ** The completion API fails *)

Section Upstream_properties.

Variable env : Env.
Variable w : World.

(** X7.  When the call of the completion API fails for an input that
    passed the checks, the request is answered with status 500 and the
    error [Text simplification failed: ] followed by the message of the
    failure (or by [An unknown error occurred.] when what was thrown is
    no [Error]), and nothing is written to the cache. *)
Theorem simplify_upstream_failure (req : SimplifyRequest) (s : Store)
        (inputText : string) (e : Thrown) :
  resolve_input w req s = (Ok inputText, s) ->
  length_ok env req inputText -> url_ok w req ->
  post w (apiKey env) (userPrompt w inputText (audience req)) = Throw e ->
  fst (simplify env w req s)
  = {| status := 500;
       body := ErrorBody ("Text simplification failed: "
                          +:+ message_or e "An unknown error occurred.") |}
  /\ redis (snd (simplify env w req s)) = redis s.
Proof.
  intros Hr Hlen Hok Hp.
  assert (Hsimp : simplifyText w inputText (audience req) (apiKey env) s
                  = (Throw (JsError ("Text simplification failed: "
                                     +:+ message_or e "An unknown error occurred.")),
                     after_post (apiKey env) (userPrompt w inputText (audience req)) s)).
  { unfold simplifyText, rethrow, bind, apiClient_post. rewrite Hp. reflexivity. }
  destruct (simplify env w req s) as [r s'] eqn:E.
  apply simplify_run_intro in E. simpl.
  inversion E as [e' H|t H Hno Hlong|t u e' H Hts Hv|t e' s1 H Hlen' Hok' Hs
                  |t x s1 e' H Hlen' Hok' Hs Hk|t x s1 H Hlen' Hok' Hs Hk];
    subst; rewrite Hr in H; simplify_eq.
  - destruct Hlen as [Hurl|Hshort]; [congruence | lia].
  - specialize (Hok _ Hts). congruence.
  - rewrite Hsimp in Hs. simplify_eq. split; reflexivity.
  - rewrite Hsimp in Hs. discriminate.
  - rewrite Hsimp in Hs. discriminate.
Qed.

End Upstream_properties.

Lemma simplify_upstream_failure_witness :
  fst (simplify demo_env demo_world_down short_text empty_store)
  = {| status := 500;
       body := ErrorBody
                 "Text simplification failed: Request failed with status code 503" |}
  /\ redis (snd (simplify demo_env demo_world_down short_text empty_store)) = ∅.
Proof.
  apply (simplify_upstream_failure demo_env demo_world_down short_text empty_store
           "Short one" (JsError "Request failed with status code 503")).
  - reflexivity.
  - right. vm_compute. discriminate.
  - intros u Hu. discriminate Hu.
  - reflexivity.
Defined.

(** ** The cache key *)

Lemma append_inv_head (a b c : string) : a +:+ b = a +:+ c -> b = c.
Proof.
  induction a as [|x a IH]; [trivial|]. rewrite !append_cons. intros [= H]. auto.
Qed.

Lemma to_int_not_nil (z : Z) :
  Z.to_int z <> Decimal.Pos Decimal.Nil /\ Z.to_int z <> Decimal.Neg Decimal.Nil.
Proof.
  destruct z as [|p|p]; simpl; split; try discriminate;
    intros [= H]; exact (Unsigned.to_uint_nonnil p H).
Qed.

(** Numbers print differently unless they are equal. *)
Lemma of_Z_inj (n m : Z) : Js.of_Z n = Js.of_Z m -> n = m.
Proof.
  unfold Js.of_Z. intros H.
  destruct (to_int_not_nil n) as [Hn1 Hn2]. destruct (to_int_not_nil m) as [Hm1 Hm2].
  pose proof (NilZero.isi _ Hn1 Hn2) as Pn. pose proof (NilZero.isi _ Hm1 Hm2) as Pm.
  rewrite H in Pn. rewrite Pn in Pm. injection Pm as Pm. now apply DecimalZ.to_int_inj.
Qed.

(** X8.  The key does not tell where the text ends and the audience
    begins: a text that contains the separator, with one audience, has
    the key of its first part with another audience. *)
Theorem cache_key_boundary (a b c uniqueId : string) :
  cache_key (a +:+ "|:|" +:+ b) (Some c) uniqueId
  = cache_key a (Some (b +:+ "|:|" +:+ c)) uniqueId
  /\ a +:+ "|:|" +:+ b <> a.
Proof.
  split.
  - unfold cache_key, Js.template. now rewrite !append_assoc.
  - intros H. apply (f_equal String.length) in H.
    rewrite !length_append in H. simpl in H. lia.
Qed.

(** X9.  Two entries saved for the same text and audience: when the
    clock has moved between the two, both are in the cache afterwards;
    when it has not, the second has replaced the first. *)
Theorem saves_at_two_times (w1 w2 : World) (originalText : string)
        (targetAudience : option string) (v1 v2 : string) (s : Store) :
  let k1 := cache_key originalText targetAudience (Js.of_Z (Date_now w1)) in
  let k2 := cache_key originalText targetAudience (Js.of_Z (Date_now w2)) in
  let s1 := snd (saveToRedis w1 originalText targetAudience v1 s) in
  let s2 := snd (saveToRedis w2 originalText targetAudience v2 s1) in
  redis_rejects w1 k1 v1 = None -> redis_rejects w2 k2 v2 = None ->
  redis s2 !! k2 = Some v2
  /\ (Date_now w1 <> Date_now w2 -> redis s2 !! k1 = Some v1)
  /\ (Date_now w1 = Date_now w2 -> redis s2 = <[k2 := v2]> (redis s)).
Proof.
  intros k1 k2 s1 s2 H1 H2. subst s1 s2.
  unfold saveToRedis, redisClient_set. fold k1 k2. rewrite H1. simpl. rewrite H2. simpl.
  split; [apply lookup_insert_eq|]. split.
  - intros Hne. rewrite lookup_insert_ne; [apply lookup_insert_eq|].
    intros Hk. apply Hne. symmetry. subst k1 k2. unfold cache_key in Hk.
    repeat (apply append_inv_head in Hk). now apply of_Z_inj.
  - intros Heq. subst k1 k2. rewrite Heq. apply insert_insert_eq.
Qed.

Lemma saves_at_two_times_witness :
  let s2 := snd (saveToRedis (demo_world_at 2) "Short one" (Some "General Public") "second"
                   (snd (saveToRedis (demo_world_at 1) "Short one" (Some "General Public")
                           "first" empty_store))) in
  redis s2 !! "prompt|:|Short one|:|General Public|:|2" = Some "second"
  /\ redis s2 !! "prompt|:|Short one|:|General Public|:|1" = Some "first".
Proof.
  destruct (saves_at_two_times (demo_world_at 1) (demo_world_at 2) "Short one"
              (Some "General Public") "first" "second" empty_store eq_refl eq_refl)
    as (Hsecond & Hfirst & _).
  split; [exact Hsecond | apply Hfirst; discriminate].
Defined.

(** ** The prompt and the audience *)

Section Prompt_properties.

Variable w : World.

Lemma targetAudience_member (a : TargetAudiences) :
  (forall x y, enum_value w x = enum_value w y -> x = y) ->
  targetAudience w !! enum_value w a = Some (audience_phrase a).
Proof.
  intros Hinj. unfold targetAudience.
  destruct a;
    repeat first
      [ apply lookup_insert_eq
      | rewrite lookup_insert_ne by (intros E; apply Hinj in E; discriminate E) ].
Qed.


(** X10.  When the members of the enum have distinct values, the prompt
    for a member's value names that member's phrase. *)
Theorem userPrompt_names_audience (text : string) (a : TargetAudiences) :
  (forall x y, enum_value w x = enum_value w y -> x = y) ->
  starts_with (userPrompt w text (Some (enum_value w a)))
    (Js.LF +:+ "Simplify the following text for " +:+ audience_phrase a +:+ ":").
Proof.
  intros Hinj. unfold userPrompt. cbv zeta.
  change (Js.template (Some (enum_value w a))) with (enum_value w a).
  rewrite (targetAudience_member a Hinj). unfold Js.template.
  eexists. rewrite !append_assoc. reflexivity.
Qed.


End Prompt_properties.

Lemma userPrompt_names_audience_witness :
  starts_with (userPrompt demo_world "  Hello " (Some "Students and Academics"))
    (Js.LF +:+ "Simplify the following text for students and academics:").
Proof.
  apply (userPrompt_names_audience demo_world "  Hello " StudentsAcademics).
  intros [] []; solve [reflexivity | discriminate].
Defined.


(** ** GET /word-info: failures, effects and well-formed replies *)

Lemma word_info_upstream_failure_witness :
  fst (word_info demo_env demo_world_down (Some "cat") empty_store)
  = {| status := 500; body := ErrorBody "Error fetching word information" |}.
Proof.
  apply (word_info_upstream_failure demo_env demo_world_down "cat" empty_store
           (JsError "Request failed with status code 503"));
    [discriminate | reflexivity].
Defined.

Section Word_info_effects.

Variable env : Env.
Variable w : World.

(** X13.  A word-info request for a word sends exactly one prompt to the
    completion API and never touches the cache; its answer is either the
    500 error or a 200 body whose definition is not empty and whose list
    of synonyms is not empty. *)
Theorem word_info_effects (word : string) (s : Store) :
  word <> EmptyString ->
  redis (snd (word_info env w (Some word) s)) = redis s
  /\ posted (snd (word_info env w (Some word) s))
     = (posted s ++ [(apiKey env, wordInfoPrompt word)])%list
  /\ (fst (word_info env w (Some word) s)
      = {| status := 500; body := ErrorBody "Error fetching word information" |}
      \/ exists definition synonyms,
           fst (word_info env w (Some word) s)
           = {| status := 200; body := WordInfoBody word definition synonyms |}
           /\ definition <> EmptyString /\ synonyms <> []).
Proof.
  intros Hw. unfold word_info.
  assert (Js.truthy_string (Some word) = Some word) as -> by now apply truthy_string_Some.
  unfold try_catch, word_info_try, bind, apiClient_post, ret.
  destruct (post w (apiKey env) (wordInfoPrompt word)) as [data|e]; cbv beta iota zeta.
  - split; [reflexivity|]. split; [reflexivity|]. right.
    do 2 eexists. split; [reflexivity|]. split.
    + apply or_default_nonempty. discriminate.
    + destruct (Js.truthy_string _) as [v|]; [|discriminate].
      pose proof (split_not_nil "," v) as Hne.
      destruct (Js.split "," v); [congruence | discriminate].
  - split; [reflexivity|]. split; [reflexivity|]. left. reflexivity.
Qed.

End Word_info_effects.

Lemma word_info_effects_witness :
  redis (snd (word_info demo_env demo_world (Some "cat") empty_store)) = ∅
  /\ posted (snd (word_info demo_env demo_world (Some "cat") empty_store))
     = [(apiKey demo_env, wordInfoPrompt "cat")]
  /\ (fst (word_info demo_env demo_world (Some "cat") empty_store)
      = {| status := 500; body := ErrorBody "Error fetching word information" |}
      \/ exists definition synonyms,
           fst (word_info demo_env demo_world (Some "cat") empty_store)
           = {| status := 200; body := WordInfoBody "cat" definition synonyms |}
           /\ definition <> EmptyString /\ synonyms <> []).
Proof.
  apply (word_info_effects demo_env demo_world "cat" empty_store). discriminate.
Defined.

(** *** Replies in the requested format are read back *)

Lemma or_default_Some_empty (s : string) : Js.or_default (Some s) EmptyString = s.
Proof. unfold Js.or_default. destruct (String.eqb_spec s EmptyString); congruence. Qed.

Lemma or_default_Some_nonempty (s d : string) :
  s <> EmptyString -> Js.or_default (Some s) d = s.
Proof. intros H. unfold Js.or_default. destruct (String.eqb_spec s EmptyString); congruence. Qed.

Lemma includes_append (a b : string) (c : ascii) :
  Js.includes (a +:+ b) c = Js.includes a c || Js.includes b c.
Proof.
  induction a as [|x a IH]; [reflexivity|]. rewrite append_cons. simpl.
  now rewrite IH, orb_assoc.
Qed.

Lemma includes_join (sep c : ascii) (pieces : list string) :
  Ascii.eqb sep c = false ->
  Forall (fun p => Js.includes p c = false) pieces ->
  Js.includes (Js.join sep pieces) c = false.
Proof.
  intros Hsep H. induction H as [|p ps Hp Hps IH]; [reflexivity|].
  destruct ps as [|q ps]; [exact Hp|].
  change (Js.join sep (p :: q :: ps)) with (p +:+ String sep (Js.join sep (q :: ps))).
  rewrite includes_append, Hp. cbn [Js.includes orb]. now rewrite Hsep, IH.
Qed.

Lemma trim_space (x : string) : Js.trim (String " " x) = Js.trim x.
Proof. reflexivity. Qed.

Lemma ends_tight_cons (c : ascii) (s : string) : ends_tight s -> ends_tight (String c s).
Proof.
  intros (d & Hd & Hw). exists d. split; [|exact Hw].
  destruct s; [discriminate | exact Hd].
Qed.

Lemma ends_tight_append (a b : string) : ends_tight b -> ends_tight (a +:+ b).
Proof.
  intros Hb. induction a as [|x a IH]; [exact Hb|].
  rewrite append_cons. now apply ends_tight_cons.
Qed.

Lemma ends_tight_join (sep : ascii) (pieces : list string) :
  pieces <> [] -> Forall ends_tight pieces -> ends_tight (Js.join sep pieces).
Proof.
  intros Hne H. induction H as [|p ps Hp Hps IH]; [congruence|].
  destruct ps as [|q ps]; [exact Hp|].
  change (Js.join sep (p :: q :: ps)) with (p +:+ String sep (Js.join sep (q :: ps))).
  apply ends_tight_append, ends_tight_cons, IH. discriminate.
Qed.

Lemma trimEnd_tight_id (s : string) : ends_tight s -> Js.trimEnd s = s.
Proof.
  induction s as [|c s IH]; [reflexivity|]. intros (d & Hd & Hw). simpl.
  destruct s as [|c' s'].
  - simpl in *. injection Hd as ->. now rewrite Hw.
  - rewrite IH by (exists d; auto). reflexivity.
Qed.

Lemma trim_tight_id (s : string) (c : ascii) :
  Js.first_char s = Some c -> Js.isWhiteSpace c = false -> ends_tight s -> Js.trim s = s.
Proof.
  intros Hc Hw He. unfold Js.trim.
  destruct s as [|d s]; [discriminate|]. simpl in Hc. injection Hc as ->.
  simpl Js.trimStart. rewrite Hw. now apply trimEnd_tight_id.
Qed.

Lemma last_char_some (s : string) : s <> EmptyString -> exists c, Js.last_char s = Some c.
Proof.
  induction s as [|c s IH]; [congruence|]. intros _.
  destruct s as [|d s]; [exists c; reflexivity|].
  destruct IH as [x Hx]; [discriminate|]. exists x. exact Hx.
Qed.

Lemma item_tight (x : string) :
  item x ->
  (exists c, Js.first_char x = Some c /\ Js.isWhiteSpace c = false) /\ ends_tight x.
Proof.
  intros (_ & _ & _ & Ht & Hne).
  destruct (trim_spec x) as (_ & Hfirst & Hlast). rewrite Ht in Hfirst, Hlast.
  split.
  - destruct x as [|c x]; [congruence|]. exists c. split; [reflexivity|].
    now apply Hfirst.
  - destruct (last_char_some x Hne) as [c Hc]. exists c. auto.
Qed.

Lemma comma_list_split (x : string) (rest : list string) :
  Forall item (x :: rest) ->
  map Js.trim (Js.split "," (comma_list (x :: rest))) = x :: rest.
Proof.
  intros H. unfold comma_list. rewrite split_join.
  - inversion H as [|? ? Hx Hrest]; subst. simpl. f_equal.
    + apply Hx.
    + clear Hx H. induction Hrest as [|y ys Hy Hys IH]; [reflexivity|].
      simpl. rewrite trim_space. f_equal; [apply Hy | exact IH].
  - discriminate.
  - inversion H as [|? ? Hx Hrest]; subst. constructor; [apply Hx|].
    clear Hx H. induction Hrest as [|y ys Hy Hys IH]; constructor; [|exact IH].
    simpl. apply Hy.
Qed.

Lemma comma_list_tight (x : string) (rest : list string) :
  Forall item (x :: rest) ->
  Js.trim (comma_list (x :: rest)) = comma_list (x :: rest)
  /\ comma_list (x :: rest) <> EmptyString.
Proof.
  intros H. inversion H as [|? ? Hx Hrest]; subst.
  destruct (item_tight x Hx) as ((c & Hc & Hw) & Hend).
  assert (Hfirst : Js.first_char (comma_list (x :: rest)) = Some c).
  { unfold comma_list. destruct x as [|d x]; [discriminate|].
    destruct rest; [exact Hc|]. exact Hc. }
  split.
  - apply (trim_tight_id _ c Hfirst Hw). unfold comma_list.
    apply ends_tight_join; [discriminate|]. constructor; [exact Hend|].
    clear H Hfirst. induction Hrest as [|y ys Hy Hys IH]; constructor; [|exact IH].
    apply ends_tight_cons, item_tight, Hy.
  - intros E. rewrite E in Hfirst. discriminate.
Qed.

Lemma comma_list_one_line (xs : list string) :
  Forall item xs ->
  Js.includes (comma_list xs) (ascii_of_nat 10) = false.
Proof.
  intros H. destruct xs as [|x rest]; [reflexivity|]. unfold comma_list.
  apply includes_join; [reflexivity|].
  inversion H as [|? ? Hx Hrest]; subst. constructor; [apply Hx|].
  clear H Hx. induction Hrest as [|y ys Hy Hys IH]; constructor; [|exact IH].
  simpl. apply Hy.
Qed.

Lemma comma_list_no_colon (xs : list string) :
  Forall item xs -> Js.includes (comma_list xs) ":" = false.
Proof.
  intros H. destruct xs as [|x rest]; [reflexivity|]. unfold comma_list.
  apply includes_join; [reflexivity|].
  inversion H as [|? ? Hx Hrest]; subst. constructor; [apply Hx|].
  clear H Hx. induction Hrest as [|y ys Hy Hys IH]; constructor; [|exact IH].
  simpl. apply Hy.
Qed.

Lemma second_field_of_line (l v : string) :
  Js.includes l ":" = false -> Js.includes v ":" = false ->
  second_field (l +:+ ": " +:+ v) = Some (Js.trim v).
Proof.
  intros Hl Hv. unfold second_field.
  change (l +:+ ": " +:+ v) with (l +:+ String ":" (String " " v)).
  rewrite split_app_sep by exact Hl.
  rewrite split_no_sep by (simpl; exact Hv). reflexivity.
Qed.

Lemma formatted_reply_lines (l1 d l2 : string) (syns : list string) :
  label l1 -> label l2 -> plain d -> Forall item syns ->
  Js.split (ascii_of_nat 10) (formatted_reply l1 d l2 syns)
  = [l1 +:+ ": " +:+ d; l2 +:+ ": " +:+ comma_list syns].
Proof.
  intros [_ H1] [_ H2] (_ & Hd & _) Hs. unfold formatted_reply.
  replace (l1 +:+ ": " +:+ d +:+ Js.LF +:+ l2 +:+ ": " +:+ comma_list syns)
    with ((l1 +:+ ": " +:+ d)
          +:+ String (ascii_of_nat 10) (l2 +:+ ": " +:+ comma_list syns))
    by (rewrite !append_assoc; reflexivity).
  rewrite split_app_sep, split_no_sep; [reflexivity| |].
  - rewrite !includes_append, H2, (comma_list_one_line syns Hs). reflexivity.
  - rewrite !includes_append, H1, Hd. reflexivity.
Qed.

Section Word_info_round_trip.

Variable env : Env.
Variable w : World.

(** X14.  A reply in the format the prompt asks for -- a first line
    [label: definition] and a second line [label: synonym, synonym, ...],
    where the definition and the synonyms are item values -- is read
    back as it was written: the answer carries that definition and that
    list of synonyms. *)
Theorem word_info_reads_formatted_reply
        (word : string) (s : Store) (data : Completion)
        (label1 definition label2 synonym : string) (synonyms : list string) :
  word <> EmptyString ->
  post w (apiKey env) (wordInfoPrompt word) = Ok data ->
  responseContent data = formatted_reply label1 definition label2 (synonym :: synonyms) ->
  label label1 -> label label2 -> plain definition -> Forall item (synonym :: synonyms) ->
  fst (word_info env w (Some word) s)
  = {| status := 200; body := WordInfoBody word definition (synonym :: synonyms) |}.
Proof.
  intros Hw Hp Hc Hl1 Hl2 Hd Hs. unfold word_info.
  assert (Js.truthy_string (Some word) = Some word) as -> by now apply truthy_string_Some.
  unfold try_catch, word_info_try, bind, apiClient_post, ret. rewrite Hp.
  cbv beta iota zeta. rewrite Hc, (formatted_reply_lines _ _ _ _ Hl1 Hl2 Hd Hs).
  cbn [map nth_error mjoin option_join fst].
  rewrite second_field_of_line by (apply Hl1 || apply Hd).
  pose proof (comma_list_no_colon _ Hs) as Hcolon.
  rewrite second_field_of_line by (apply Hl2 || exact Hcolon).
  destruct (comma_list_tight synonym synonyms Hs) as [Htrim Hne].
  destruct Hd as (_ & _ & Hdt & Hdne).
  cbn [mjoin option_join]. rewrite Hdt, Htrim.
  rewrite (or_default_Some_nonempty _ _ Hdne).
  assert (Js.truthy_string (Some (comma_list (synonym :: synonyms)))
          = Some (comma_list (synonym :: synonyms))) as ->
      by now apply truthy_string_Some.
  rewrite (comma_list_split synonym synonyms Hs). reflexivity.
Qed.

End Word_info_round_trip.

Lemma word_info_reads_formatted_reply_witness :
  fst (word_info demo_env (demo_world_replying demo_formatted_reply) (Some "cat") empty_store)
  = {| status := 200;
       body := WordInfoBody "cat" "A small, domesticated animal."
                 ["feline"; "kitty"; "puss"] |}.
Proof.
  apply (word_info_reads_formatted_reply demo_env (demo_world_replying demo_formatted_reply)
           "cat" empty_store demo_formatted_reply
           "1. Definition" "A small, domesticated animal." "2. Synonyms"
           "feline" ["kitty"; "puss"]).
  - discriminate.
  - reflexivity.
  - reflexivity.
  - split; reflexivity.
  - split; reflexivity.
  - repeat split; try reflexivity. discriminate.
  - repeat constructor; discriminate.
Defined.

(** ** The cache refuses the write *)

Section Cache_failure_properties.

Variable env : Env.
Variable w : World.

(** X15.  When Redis rejects the write after a simplification that
    succeeded, the client gets no simplified text: the request is
    answered with status 500 and the message of the rejection, although
    the prompt was sent to the completion API, and the cache is as it
    was. *)
Theorem simplify_cache_failure (req : SimplifyRequest) (s : Store)
        (inputText t : string) (s1 : Store) (m : string) :
  resolve_input w req s = (Ok inputText, s) ->
  length_ok env req inputText -> url_ok w req ->
  simplifyText w inputText (audience req) (apiKey env) s = (Ok t, s1) ->
  redis_rejects w (cache_key inputText (audience req) (Js.of_Z (Date_now w))) t
  = Some (JsError m) ->
  m <> EmptyString ->
  fst (simplify env w req s) = {| status := 500; body := ErrorBody m |}
  /\ redis (snd (simplify env w req s)) = redis s
  /\ posted (snd (simplify env w req s))
     = (posted s ++ [(apiKey env, userPrompt w inputText (audience req))])%list.
Proof.
  intros Hr Hlen Hok Hsimp Hk Hm.
  pose proof (simplifyText_redis w _ _ _ _ _ _ Hsimp) as Hredis.
  assert (Hposted : posted s1
                    = (posted s ++ [(apiKey env, userPrompt w inputText (audience req))])%list).
  { destruct (simplifyText_store w inputText (audience req) (apiKey env) s) as [o Ho].
    rewrite Ho in Hsimp. injection Hsimp as _ <-. reflexivity. }
  destruct (simplify env w req s) as [r s'] eqn:E.
  apply simplify_run_intro in E. simpl.
  inversion E as [e' H|t' H Hno Hlong|t' u e' H Hts Hv|t' e' s2 H Hlen' Hok' Hs
                  |t' x s2 e' H Hlen' Hok' Hs Hk'|t' x s2 H Hlen' Hok' Hs Hk'];
    subst; rewrite Hr in H; simplify_eq.
  - destruct Hlen as [Hurl|Hshort]; [congruence | lia].
  - specialize (Hok _ Hts). congruence.
  - congruence.
  - unfold key_of in Hk'. rewrite Hsimp in Hs. simplify_eq.
    unfold simplify_catch, message_or. rewrite (or_default_Some_nonempty _ _ Hm). auto.
  - unfold key_of in Hk'. rewrite Hsimp in Hs. simplify_eq.
Qed.

End Cache_failure_properties.

Lemma simplify_cache_failure_witness :
  fst (simplify demo_env demo_world_without_redis short_text empty_store)
  = {| status := 500; body := ErrorBody "The client is closed" |}
  /\ redis (snd (simplify demo_env demo_world_without_redis short_text empty_store)) = ∅
  /\ posted (snd (simplify demo_env demo_world_without_redis short_text empty_store))
     = [(apiKey demo_env, userPrompt demo_world_without_redis "Short one"
                            (Some "General Public"))].
Proof.
  apply (simplify_cache_failure demo_env demo_world_without_redis short_text empty_store
           "Short one" "Plain words."
           (after_post (apiKey demo_env)
              (userPrompt demo_world_without_redis "Short one" (Some "General Public"))
              empty_store)
           "The client is closed").
  - reflexivity.
  - right. vm_compute. discriminate.
  - intros u Hu. discriminate Hu.
  - reflexivity.
  - reflexivity.
  - discriminate.
Defined.

(** * The other copy of the /simplify handler *)

Section Legacy_properties.

Variable env : Env.
Variable w : World.


(** X16.  Without a file and without a (non-empty) text, this handler
    answers 400 with its own message, before anything else happens. *)
Theorem legacy_simplify_without_input (req : Legacy.Request) (s : Store) :
  Legacy.r_file req = None -> Js.truthy (Legacy.r_text req) = false ->
  Legacy.simplify env w req s
  = ({| Legacy.code := 400;
        Legacy.payload :=
          Legacy.Object (ErrorBody "No text or file provided for simplification.") |}, s).
Proof.
  intros Hf Ht. unfold Legacy.simplify. rewrite Hf, Ht. reflexivity.
Qed.

(** X17.  A file of a MIME type other than the three it knows is
    answered 400 [Unsupported file type], whatever the text field holds,
    and nothing is sent to the completion API. *)
Theorem legacy_unsupported_file (req : Legacy.Request) (f : File) (s : Store) :
  Legacy.r_file req = Some f ->
  mimetype f <> "application/pdf" ->
  mimetype f <> "application/vnd.openxmlformats-officedocument.wordprocessingml.document" ->
  mimetype f <> "text/plain" ->
  Legacy.simplify env w req s
  = ({| Legacy.code := 400;
        Legacy.payload := Legacy.Object (ErrorBody "Unsupported file type") |}, s).
Proof.
  intros Hf Hpdf Hword Htxt. apply String.eqb_neq in Hpdf, Hword, Htxt.
  unfold Legacy.simplify, Legacy.extract. rewrite Hf, Hpdf, Hword, Htxt. reflexivity.
Qed.

(** X18.  When the completion API fails, this handler answers 200, and
    the [simplifiedText] it returns is the error text: its
    [simplifyText] catches the failure and returns a string. *)
Theorem legacy_upstream_failure_is_200 (req : Legacy.Request) (s : Store)
        (t : string) (e : Thrown) :
  Legacy.r_file req = None -> Legacy.r_text req = Some t -> t <> EmptyString ->
  Z.of_nat (String.length t) <= wordLimit env ->
  post w (apiKey env) (Legacy.prompt t (Legacy.r_audience req)) = Throw e ->
  fst (Legacy.simplify env w req s)
  = {| Legacy.code := 200;
       Legacy.payload :=
         Legacy.Object (SimplifiedBody ("Error during text simplification: "
                                        +:+ message_or e "Unknown error")) |}.
Proof.
  intros Hf Ht Hne Hlen Hp. unfold Legacy.simplify. rewrite Hf, Ht.
  assert (Js.truthy (Some t) = true) as Htruthy by (apply truthy_spec; eauto).
  rewrite Htruthy. simpl.
  assert (Js.truthy_string (Some t) = Some t) as -> by now apply truthy_string_Some.
  destruct (Z.of_nat (String.length t) >? wordLimit env) eqn:Hgt; [lia|].
  unfold Legacy.simplifyText, Legacy.recover, bind, Legacy.axios_post. rewrite Hp.
  reflexivity.
Qed.


(** X20.  A non-empty input longer than the limit is answered 400
    whether it comes from the text field or from a file; the body of
    that answer is a bare string that names the limit. *)
Theorem legacy_length_check (req : Legacy.Request) (s : Store) (t : string) :
  (Legacy.r_file req = None /\ Legacy.r_text req = Some t
   \/ exists f, Legacy.r_file req = Some f /\ Legacy.extract w f = inr (Some t)) ->
  t <> EmptyString ->
  wordLimit env < Z.of_nat (String.length t) ->
  Legacy.simplify env w req s
  = ({| Legacy.code := 400;
        Legacy.payload :=
          Legacy.Text ("Text is too long. Maximum length is "
                       +:+ Js.of_Z (wordLimit env) +:+ " characters") |}, s).
Proof.
  intros Hin Hne Hlong.
  assert (Htruthy : Js.truthy (Some t) = true) by (apply truthy_spec; eauto).
  assert (Hts : Js.truthy_string (Some t) = Some t) by now apply truthy_string_Some.
  assert (Hgt : (Z.of_nat (String.length t) >? wordLimit env) = true) by lia.
  unfold Legacy.simplify.
  destruct Hin as [[Hf Ht]|(f & Hf & Hx)].
  - rewrite Hf, Ht, Htruthy. simpl. rewrite Hts, Hgt. reflexivity.
  - rewrite Hf, Hx. simpl. rewrite Hts, Hgt. reflexivity.
Qed.

End Legacy_properties.

Lemma legacy_simplify_without_input_witness :
  Legacy.simplify demo_env demo_world legacy_no_input empty_store
  = ({| Legacy.code := 400;
        Legacy.payload :=
          Legacy.Object (ErrorBody "No text or file provided for simplification.") |},
     empty_store).
Proof. apply legacy_simplify_without_input; reflexivity. Defined.

Lemma legacy_unsupported_file_witness :
  Legacy.simplify demo_env demo_world legacy_picture empty_store
  = ({| Legacy.code := 400;
        Legacy.payload := Legacy.Object (ErrorBody "Unsupported file type") |}, empty_store).
Proof.
  apply (legacy_unsupported_file demo_env demo_world legacy_picture picture);
    [reflexivity | discriminate ..].
Defined.

Lemma legacy_upstream_failure_is_200_witness :
  fst (Legacy.simplify demo_env demo_world_down legacy_short_text empty_store)
  = {| Legacy.code := 200;
       Legacy.payload :=
         Legacy.Object
           (SimplifiedBody
              "Error during text simplification: Request failed with status code 503") |}.
Proof.
  apply (legacy_upstream_failure_is_200 demo_env demo_world_down legacy_short_text
           empty_store "Short one" (JsError "Request failed with status code 503")).
  - reflexivity.
  - reflexivity.
  - discriminate.
  - vm_compute. discriminate.
  - reflexivity.
Defined.

Lemma legacy_length_check_witness :
  Legacy.simplify demo_env demo_world legacy_long_file empty_store
  = ({| Legacy.code := 400;
        Legacy.payload := Legacy.Text "Text is too long. Maximum length is 10 characters" |},
     empty_store).
Proof.
  apply (legacy_length_check demo_env demo_world legacy_long_file empty_store
           "This text has more than ten characters.").
  - right. exists long_file. split; reflexivity.
  - discriminate.
  - vm_compute. reflexivity.
Defined.
